(** * podcast-to-blog: the orchestration and resilience layer

    A shallow embedding of the quota ledger ([config/usage_limiter.py]),
    the generation client ([core/blog_generator.py]), the publishing client
    ([core/wordpress_poster.py]) and the background job
    ([app.py], [process_podcast_background]), then of the two endpoints
    around the job ([api_process] and [api_result] of [app.py]), the
    choice of downloader ([core/podcast_processor.py]) and the loading of
    the settings ([config/settings.py]), followed by the properties the
    specification states about them and by further properties of the same
    code.

    Conventions of the embedding.
    - A Python [str] is a [string]; one [ascii] stands for one character.
      Message literals that are not Latin are carried in their UTF-8
      encoding; no definition inspects them.
    - A [dict] with string keys is a [gmap string _], except inside decoded
      JSON, where it is an association list.
    - Code that raises returns an [outcome]; [try]/[except] is written out as
      a match on it.
    - What the code receives from outside (the clock, the disk, the text
      backend, the random source, the network, the parsed pages) is read
      from an environment indexed by the number of reads made so far. *)

From Stdlib Require Import ZArith NArith QArith Lqa List String Ascii Bool.
From stdpp Require Import base option list gmap fin_maps strings.

Local Open Scope string_scope.
#[local] Set Warnings "-register-all".

(** ** Results of code that may raise *)

Inductive exn : Type :=
  | ApiError (msg : string)        (* raised by a collaborator; [str(e) = msg] *)
  | PlainException (msg : string)  (* [raise Exception(msg)] *)
  | NameError (name : string)
  | AttributeError (attr : string)
  | TypeError
  | KeyError (key : string).

Inductive outcome (A : Type) : Type :=
  | Ok (a : A)
  | Raise (e : exn).
Arguments Ok {A} a.
Arguments Raise {A} e.

(** ** The calendar behind [datetime]

    A naive [datetime] is its number of microseconds since
    0001-01-01T00:00:00; every day has 86400 seconds. *)

Module Calendar.

Record date : Type := mkdate { year : N; month : N; day : N }.

Definition is_leap (y : N) : bool :=
  (((y mod 4 =? 0) && negb (y mod 100 =? 0)) || (y mod 400 =? 0))%N.

Definition days_in_month (y m : N) : N :=
  (if m =? 2 then (if is_leap y then 29 else 28)
   else if (m =? 4) || (m =? 6) || (m =? 9) || (m =? 11) then 30
   else 31)%N.

Definition next_day (d : date) : date :=
  (if day d <? days_in_month (year d) (month d)
   then mkdate (year d) (month d) (day d + 1)
   else if month d <? 12 then mkdate (year d) (month d + 1) 1
   else mkdate (year d + 1) 1 1)%N.

(** [date.min], and the date [n] days after it ([toordinal() = n + 1]). *)
Definition date_min : date := mkdate 1 1 1.
Definition fromordinal (n : N) : date := N.iter n next_day date_min.

Definition day_us : N := 86400000000.
Definition hour_us : N := 3600000000.
(** 1970-01-01T00:00:00, the origin of [utcnow]'s clock. *)
Definition epoch_ordinal : N := 719162.
Definition epoch_us : N := epoch_ordinal * day_us.

Definition ordinal_of (t : N) : N := (t / day_us)%N.
Definition date_of (t : N) : date := fromordinal (ordinal_of t).

(** [t.replace(hour=0, minute=0, second=0, microsecond=0)] *)
Definition midnight (t : N) : N := (t - t mod day_us)%N.

Definition digit (k : N) : ascii := ascii_of_N (48 + k).
Definition pad2 (n : N) : string :=
  String (digit (n / 10)) (String (digit (n mod 10)) "").
Definition pad4 (n : N) : string := pad2 (n / 100) ++ pad2 (n mod 100).
Definition pad6 (n : N) : string := pad2 (n / 10000) ++ pad4 (n mod 10000).

(** [strftime("%Y-%m-%d")] of a date within [datetime]'s range of years. *)
Definition format_ymd (d : date) : string :=
  pad4 (year d) ++ "-" ++ pad2 (month d) ++ "-" ++ pad2 (day d).

Definition format_hms (t : N) : string :=
  let s := ((t mod day_us) / 1000000)%N in
  pad2 (s / 3600) ++ ":" ++ pad2 (s / 60 mod 60) ++ ":" ++ pad2 (s mod 60).

Definition strftime_ymd (t : N) : string := format_ymd (date_of t).

(** A date as one number, in the order of the calendar, and the ranges
    of the month and the day. *)
Definition stamp (d : date) : N := (year d * 10000 + month d * 100 + day d)%N.
Definition valid (d : date) : Prop :=
  (1 <= month d <= 12)%N ∧ (1 <= day d <= 31)%N.

(** [strftime("%Y-%m-%d %H:%M:%S JST")] *)
Definition strftime_jst (t : N) : string :=
  strftime_ymd t ++ " " ++ format_hms t ++ " JST".

(** [isoformat()]: the fraction is printed only when it is not zero. *)
Definition isoformat (t : N) : string :=
  let us := (t mod 1000000)%N in
  strftime_ymd t ++ "T" ++ format_hms t
    ++ (if (us =? 0)%N then "" else "." ++ pad6 us).

End Calendar.

(** ** The quota ledger ([config/usage_limiter.py]) *)

Module UsageLimiter.
Import Calendar.

(** One day's record, as [use_quota] writes it. *)
Record day_record : Type := mkrecord { total : Z; ips : gmap string Z }.

(** What [usage_log.json] holds: nothing, something that cannot be opened,
    text that is not JSON, or a day-keyed log. *)
Inductive log_file : Type :=
  | Missing
  | Unreadable
  | Corrupt
  | Stored (log : gmap string day_record).

(** The surroundings of the ledger: the file, the clock ([clock w n] is
    the [n]-th value [datetime.utcnow()] returns, in microseconds since
    the epoch) and the disk ([disk w n] tells whether the [n]-th attempt
    to open the file for writing succeeds). *)
Record world : Type := mkworld {
  file : log_file;
  clock : nat → N;
  ticks : nat;
  disk : nat → bool;
  writes : nat
}.

Record usage_info : Type := mkinfo {
  total_used : Z;
  info_daily_limit : Z;
  remaining : Z;
  can_use : bool;
  next_reset : string;
  next_reset_iso : string
}.

Definition utcnow (w : world) : N * world :=
  (epoch_us + clock w (ticks w),
   mkworld (file w) (clock w) (S (ticks w)) (disk w) (writes w))%N.

(** A client address is truthy when it is given and not empty. *)
Definition truthy (client_ip : option string) : option string :=
  match client_ip with
  | Some ip => if String.eqb ip "" then None else Some ip
  | None => None
  end.

Section Limiter.
Variable daily_limit : Z.

Definition get_today_key (w : world) : string * world :=
  let '(now, w) := utcnow w in
  let jst_now := (now + 9 * hour_us)%N in
  (strftime_ymd jst_now, w).

Definition load_usage_log (w : world) : gmap string day_record :=
  match file w with
  | Stored log => log
  | Missing => ∅
  | Unreadable | Corrupt => ∅
  end.

Definition save_usage_log (log_data : gmap string day_record) (w : world)
  : bool * world :=
  if disk w (writes w)
  then (true, mkworld (Stored log_data) (clock w) (ticks w) (disk w) (S (writes w)))
  else (false, mkworld (file w) (clock w) (ticks w) (disk w) (S (writes w))).

Definition get_usage_info (client_ip : option string) (w : world)
  : usage_info * world :=
  let '(today_key, w) := get_today_key w in
  let log_data := load_usage_log w in
  let today_data := default (mkrecord 0 ∅) (log_data !! today_key) in
  let total_used := total today_data in
  let remaining := Z.max 0 (daily_limit - total_used) in
  let '(now, w) := utcnow w in
  let jst_now := (now + 9 * hour_us)%N in
  let next_reset := (midnight jst_now + 1 * day_us)%N in
  (mkinfo total_used daily_limit remaining (0 <? remaining)%Z
          (strftime_jst next_reset) (isoformat next_reset), w).

Definition cleanup_old_logs (log_data : gmap string day_record) (w : world)
  : gmap string day_record * world :=
  let '(now, w) := utcnow w in
  let cutoff_date := (now + 9 * hour_us - 7 * day_us)%N in
  let cutoff_key := strftime_ymd cutoff_date in
  (filter (λ kv, String.ltb kv.1 cutoff_key = false) log_data, w).

Definition bump_ip (client_ip : option string) (r : day_record) : day_record :=
  match truthy client_ip with
  | Some ip =>
      let ips := match ips r !! ip with
                 | None => <[ip := 0%Z]> (ips r)
                 | Some _ => ips r
                 end in
      mkrecord (total r) (alter (λ n, n + 1)%Z ip ips)
  | None => r
  end.

Definition msg_limit_reached : string := "利用上限に達しました".
Definition msg_recorded : string := "利用回数を記録しました".
Definition msg_save_failed : string := "利用記録の保存に失敗しました".

Definition use_quota (client_ip : option string) (w : world)
  : (bool * string) * world :=
  let '(usage_info, w) := get_usage_info client_ip w in
  if negb (can_use usage_info) then ((false, msg_limit_reached), w)
  else
    let '(today_key, w) := get_today_key w in
    let log_data := load_usage_log w in
    let log_data := match log_data !! today_key with
                    | None => <[today_key := mkrecord 0 ∅]> log_data
                    | Some _ => log_data
                    end in
    let log_data :=
      alter (λ r, mkrecord (total r + 1) (ips r)) today_key log_data in
    let log_data := alter (bump_ip client_ip) today_key log_data in
    let '(log_data, w) := cleanup_old_logs log_data w in
    let '(saved, w) := save_usage_log log_data w in
    if saved then ((true, msg_recorded), w)
    else ((false, msg_save_failed), w).




End Limiter.

(** Vocabulary of the statements about the ledger. The day, in Japan, of
    a clock value; a world whose clock stays on one day; the key of that
    day; what the log holds for a key. *)
Definition jst_ordinal (r : N) : N := ordinal_of (epoch_us + r + 9 * hour_us)%N.
Definition on_day (w : world) (d : N) : Prop := ∀ n, jst_ordinal (clock w n) = d.
Definition day_key (d : N) : string := format_ymd (fromordinal d).
Definition today_record (k : string) (w : world) : day_record :=
  default (mkrecord 0 ∅) (load_usage_log w !! k).
Definition used (k : string) (w : world) : Z := total (today_record k w).
Definition new_record (ip : option string) (k : string) (w : world) : day_record :=
  bump_ip ip (mkrecord (used k w + 1) (ips (today_record k w))).


End UsageLimiter.

(** ** Text: the [str] methods and regular expressions the code uses *)

Module Text.

Definition chr (n : N) : ascii := ascii_of_N n.
Definition is_char (n : N) (c : ascii) : bool := (N_of_ascii c =? n)%N.

Definition lt_sign : N := 60.    (* < *)
Definition gt_sign : N := 62.    (* > *)
Definition lbrace : N := 123.    (* { *)
Definition rbrace : N := 125.    (* } *)
Definition slash : N := 47.      (* / *)

(** [str.lower()] on the characters below 256. *)
Definition lower_char (c : ascii) : ascii :=
  let n := N_of_ascii c in
  (if ((65 <=? n) && (n <=? 90)) || ((192 <=? n) && (n <=? 222) && negb (n =? 215))
   then ascii_of_N (n + 32) else c)%N.

Fixpoint lower (s : string) : string :=
  match s with
  | "" => ""
  | String c s' => String (lower_char c) (lower s')
  end.

(** [sub in s] *)
Fixpoint contains (sub s : string) : bool :=
  String.prefix sub s
  || match s with
     | "" => false
     | String _ s' => contains sub s'
     end.

(** [str.isspace()] of one character, which is also what [\s] matches. *)
Definition is_space (c : ascii) : bool :=
  let n := N_of_ascii c in
  (((9 <=? n) && (n <=? 13)) || ((28 <=? n) && (n <=? 32))
   || (n =? 133) || (n =? 160))%N.

Fixpoint lstrip (s : string) : string :=
  match s with
  | "" => ""
  | String c s' => if is_space c then lstrip s' else s
  end.

Fixpoint rstrip (s : string) : string :=
  match s with
  | "" => ""
  | String c s' =>
      let r := rstrip s' in
      if is_space c && String.eqb r "" then "" else String c r
  end.

Definition strip (s : string) : string := rstrip (lstrip s).

(** [s.rstrip('/')] *)
Fixpoint rstrip_slash (s : string) : string :=
  match s with
  | "" => ""
  | String c s' =>
      let r := rstrip_slash s' in
      if is_char slash c && String.eqb r "" then "" else String c r
  end.

Fixpoint ends_with (suffix s : string) : bool :=
  String.eqb suffix s
  || match s with
     | "" => false
     | String _ s' => ends_with suffix s'
     end.

(** [s.replace(old, "")] for a non-empty [old]: occurrences are found left
    to right and do not overlap; [skip] counts the characters of the
    current occurrence still to drop. *)
Fixpoint remove_all_from (old : string) (skip : nat) (s : string) : string :=
  match s with
  | "" => ""
  | String c s' =>
      match skip with
      | S k => remove_all_from old k s'
      | O => if String.prefix old s
             then remove_all_from old (String.length old - 1) s'
             else String c (remove_all_from old 0 s')
      end
  end.
Definition remove_all (old s : string) : string := remove_all_from old 0 s.

(** [s[:n]] *)
Definition take (n : nat) (s : string) : string := String.substring 0 n s.

Fixpoint has_char (n : N) (s : string) : bool :=
  match s with
  | "" => false
  | String c s' => is_char n c || has_char n s'
  end.

(** [re.sub(r'<[^>]+>', '', s)]. A [<] opens a match when the next
    character is not [>] and a [>] follows later; the match then runs to
    the first [>]. [inside] tells that the scan is within a match. *)
Fixpoint strip_tags_from (inside : bool) (s : string) : string :=
  match s with
  | "" => ""
  | String c s' =>
      if inside
      then (if is_char gt_sign c then strip_tags_from false s'
            else strip_tags_from true s')
      else if is_char lt_sign c
              && match s' with
                 | "" => false
                 | String c' _ => negb (is_char gt_sign c') && has_char gt_sign s'
                 end
           then strip_tags_from true s'
           else String c (strip_tags_from false s')
  end.
Definition strip_tags (s : string) : string := strip_tags_from false s.

(** [s[n:]] *)
Fixpoint drop (n : nat) (s : string) : string :=
  match n, s with
  | S n', String _ s' => drop n' s'
  | _, _ => s
  end.

(** The text after, and the text before, the first occurrence of [pat]. *)
Fixpoint find_after (pat s : string) : option string :=
  if String.prefix pat s
  then Some (drop (String.length pat) s)
  else match s with
       | "" => None
       | String _ s' => find_after pat s'
       end.

Fixpoint find_before (pat s : string) : option string :=
  if String.prefix pat s then Some ""
  else match s with
       | "" => None
       | String c s' => String c <$> find_before pat s'
       end.

Definition fence_open : string := "```json".
Definition fence_close : string := "```".

(** Group 1 of [re.search(r'```json\s*(.*?)\s*```', content, re.DOTALL)]:
    the search stops at the first opening fence that has a closing fence
    after it, and the lazy group, between two greedy runs of white space,
    is the text up to the next closing fence without the white space at
    its ends. *)
Definition search_fenced (content : string) : option string :=
  match find_after fence_open content with
  | None => None
  | Some rest =>
      match find_before fence_close rest with
      | None => None
      | Some body => Some (strip body)
      end
  end.

(** [{[^{}]*}] read at the head of [s] (after its opening brace)
    succeeds when a [}] comes before any other brace. *)
Fixpoint closes_flat (s : string) : bool :=
  match s with
  | "" => false
  | String c s' =>
      if is_char rbrace c then true
      else if is_char lbrace c then false
      else closes_flat s'
  end.

(** [(?:[^{}]|{[^{}]*})*\}] read at the head of [s]: the matched text, if
    any. [nested] tells that the scan is within an inner pair of braces. *)
Fixpoint span_body (nested : bool) (s : string) : option string :=
  match s with
  | "" => None
  | String c s' =>
      if nested
      then String c <$> span_body (negb (is_char rbrace c)) s'
      else if is_char rbrace c then Some (String c "")
      else if is_char lbrace c
           then (if closes_flat s' then String c <$> span_body true s' else None)
           else String c <$> span_body false s'
  end.

(** Group 0 of [re.search(r'\{(?:[^{}]|{[^{}]*})*\}', content, re.DOTALL)]:
    the match at the leftmost opening brace from which there is one. *)
Fixpoint search_brace (content : string) : option string :=
  match content with
  | "" => None
  | String c s' =>
      match (if is_char lbrace c then span_body false s' else None) with
      | Some body => Some (String c body)
      | None => search_brace s'
      end
  end.

(** The shape of a brace span: text without braces, a body made of such
    characters and of flat groups in braces, and a body in braces. *)
Definition is_brace (c : ascii) : bool := is_char lbrace c || is_char rbrace c.

Fixpoint flat (s : string) : bool :=
  match s with
  | "" => true
  | String c s' => negb (is_brace c) && flat s'
  end.

Inductive items : string → Prop :=
  | items_nil : items ""
  | items_char c s : is_brace c = false → items s → items (String c s)
  | items_group g s :
      flat g = true → items s →
      items (String (chr lbrace) (g ++ String (chr rbrace) s)).


End Text.

(** ** Decoded JSON and the operations the code applies to it *)

Inductive json : Type :=
  | JNull
  | JBool (b : bool)
  | JInt (n : Z)
  | JFloat (f : Q)
  | JString (s : string)
  | JList (items : list json)
  | JDict (entries : list (string * json)).

Module Py.

Fixpoint assoc (key : string) (entries : list (string * json)) : option json :=
  match entries with
  | [] => None
  | (k, v) :: rest => if String.eqb k key then Some v else assoc key rest
  end.

(** [d.get(key, dflt)] *)
Definition get (d : json) (key : string) (dflt : json) : outcome json :=
  match d with
  | JDict entries => Ok (default dflt (assoc key entries))
  | _ => Raise (AttributeError "get")
  end.

(** [d[key]] for a string [key] *)
Definition item (d : json) (key : string) : outcome json :=
  match d with
  | JDict entries =>
      match assoc key entries with
      | Some v => Ok v
      | None => Raise (KeyError key)
      end
  | _ => Raise TypeError
  end.

(** [bool(v)] *)
Definition truth (v : json) : bool :=
  match v with
  | JNull => false
  | JBool b => b
  | JInt n => negb (n =? 0)%Z
  | JFloat f => negb (Qeq_bool f 0)
  | JString s => negb (String.eqb s "")
  | JList items => match items with [] => false | _ => true end
  | JDict entries => match entries with [] => false | _ => true end
  end.

(** [v[:n]], which only sequences allow *)
Definition slice (v : json) (n : nat) : outcome json :=
  match v with
  | JString s => Ok (JString (Text.take n s))
  | JList items => Ok (JList (firstn n items))
  | _ => Raise TypeError
  end.

(** [re.sub(r'<[^>]+>', '', v)], which only a string allows *)
Definition sub_tags (v : json) : outcome string :=
  match v with
  | JString s => Ok (Text.strip_tags s)
  | _ => Raise TypeError
  end.

End Py.

(** ** The generation client ([core/blog_generator.py]) *)

Module BlogGenerator.

(** One call of [messages.stream]: the texts streamed, and the message of
    the exception that ends the call, if one does. *)
Record invocation : Type := mkinvocation {
  chunks : list string;
  failure : option string
}.

(** What the client is given: the article settings, the reference style
    already fetched, the two prompt templates, [json.loads] (with [None]
    for [JSONDecodeError]), the backend ([backend n prompt] answers the
    [n]-th call) and the random source ([jitter n] is the [n]-th value of
    [random.uniform(0, 1)]). *)
Record env : Type := mkenv {
  min_characters : Z;
  reference_style : string;
  build_prompt : string → string → string → string;
  expand_prompt : json → Z → string → string;
  json_loads : string → option json;
  backend : nat → string → invocation;
  jitter : nat → Q
}.

Inductive event : Type :=
  | Called (prompt : string)
  | WarnRetry (wait_time : Q) (attempt max : nat)
  | Slept (wait_time : Q)
  | ErrJson
  | ErrReceived (snippet : string)
  | InfoFirstPass (char_count : nat)
  | InfoExpanding
  | InfoSecondPass (char_count : nat)
  | WarnExpandFailed
  | InfoConverted (title : json)
  | ErrConvert (e : exn).

Record state : Type := mkstate {
  calls : nat;
  draws : nat;
  events : list event
}.

Definition emit (e : event) (st : state) : state :=
  mkstate (calls st) (draws st) (events st ++ [e]).

Definition msg_no_json : string :=
  "Claude APIからの適切なJSON応答を取得できませんでした".

Definition max_retries : nat := 3.

(** ["overloaded" in str(e).lower()] *)
Definition overloaded (msg : string) : bool :=
  Text.contains "overloaded" (Text.lower msg).

Section Client.
Variable E : env.

(** [messages.stream(...)] and the loop over [text_stream] *)
Definition stream (prompt : string) (st : state) : invocation * state :=
  (backend E (calls st) prompt,
   mkstate (S (calls st)) (draws st) (events st ++ [Called prompt])).

Definition uniform (st : state) : Q * state :=
  (jitter E (draws st), mkstate (calls st) (S (draws st)) (events st)).

(** The handler of [json.JSONDecodeError]. *)
Definition recover (content : string) (st : state) : outcome json * state :=
  let failed st :=
    (Raise (PlainException msg_no_json),
     emit (ErrReceived (Text.take 500 content)) (emit ErrJson st)) in
  match Text.search_fenced content with
  | Some group1 =>
      let json_str := Text.strip group1 in
      match json_loads E json_str with
      | Some article_data => (Ok article_data, st)
      | None => failed st
      end
  | None =>
      match Text.search_brace content with
      | Some json_str =>
          match json_loads E json_str with
          | Some article_data => (Ok article_data, st)
          | None => failed st
          end
      | None => failed st
      end
  end.

(** The loop [for attempt in range(max_retries)], from [attempt] on with
    [remaining] rounds to go; a loop that runs out returns [None]. *)
Fixpoint attempts (remaining attempt : nat) (prompt : string) (st : state)
  : outcome json * state :=
  match remaining with
  | O => (Ok JNull, st)
  | S remaining' =>
      let '(inv, st) := stream prompt st in
      match failure inv with
      | None =>
          let content := String.concat "" (chunks inv) in
          match json_loads E content with
          | Some article_data => (Ok article_data, st)
          | None => recover content st
          end
      | Some msg =>
          if overloaded msg && (attempt <? max_retries - 1)%nat
          then
            let '(u, st) := uniform st in
            let wait_time := (inject_Z (2 ^ Z.of_nat attempt) + u)%Q in
            let st := emit (WarnRetry wait_time (attempt + 1) max_retries) st in
            let st := emit (Slept wait_time) st in
            attempts remaining' (S attempt) prompt st
          else (Raise (ApiError msg), st)
      end
  end.

Definition _generate_with_claude (prompt : string) (st : state)
  : outcome json * state :=
  attempts max_retries 0 prompt st.

(** [_expand_article]: one more generation, the first article kept when
    anything in it raises. *)
Definition _expand_article (article_data : json) (min_characters : Z)
    (episode_url : string) (st : state) : outcome json * state :=
  let prompt := expand_prompt E article_data min_characters episode_url in
  let '(r, st) := _generate_with_claude prompt st in
  let r :=
    match r with
    | Ok expanded_data =>
        match Py.get expanded_data "content" (JString "") with
        | Ok content =>
            match Py.sub_tags content with
            | Ok expanded_text => Ok (expanded_data, String.length expanded_text)
            | Raise e => Raise e
            end
        | Raise e => Raise e
        end
    | Raise e => Raise e
    end in
  match r with
  | Ok (expanded_data, expanded_char_count) =>
      (Ok expanded_data, emit (InfoSecondPass expanded_char_count) st)
  | Raise e => (Ok article_data, emit WarnExpandFailed st)
  end.

(** [_ensure_minimum_length]. The call of [_expand_article] names
    [episode_url], which is neither a parameter nor a local of this
    method nor a global of the module: evaluating the argument raises
    [NameError], and [_expand_article] is not entered. *)
Definition _ensure_minimum_length (article_data : json) (st : state)
  : outcome json * state :=
  match Py.get article_data "content" (JString "") with
  | Raise e => (Raise e, st)
  | Ok content =>
      match Py.sub_tags content with
      | Raise e => (Raise e, st)
      | Ok content_text =>
          let char_count := String.length content_text in
          let st := emit (InfoFirstPass char_count) st in
          if (Z.of_nat char_count <? min_characters E)%Z
          then (Raise (NameError "episode_url"), emit InfoExpanding st)
          else (Ok article_data, st)
      end
  end.

Definition generate_article (transcript episode_url : string) (st : state)
  : outcome json * state :=
  let prompt := build_prompt E transcript (reference_style E) episode_url in
  let '(r, st) :=
    match _generate_with_claude prompt st with
    | (Raise e, st) => (Raise e, st)
    | (Ok article_data, st) =>
        match _ensure_minimum_length article_data st with
        | (Raise e, st) => (Raise e, st)
        | (Ok article_data, st) =>
            match Py.item article_data "title" with
            | Raise e => (Raise e, st)
            | Ok title => (Ok article_data, emit (InfoConverted title) st)
            end
        end
    end in
  match r with
  | Ok article_data => (Ok article_data, st)
  | Raise e => (Raise e, emit (ErrConvert e) st)
  end.


End Client.

Definition initial : state := mkstate 0 0 [].







Definition called (e : event) : bool :=
  match e with Called _ => true | _ => false end.
Definition slept (st : state) : list Q :=
  omap (λ e, match e with Slept w => Some w | _ => None end) (events st).

End BlogGenerator.

(** ** The publishing client ([core/wordpress_poster.py]) *)

Module WordPressPoster.

(** A hidden [input] of a form: its [name] and [value] attributes. *)
Definition hidden_input : Type := option string * option string.

(** What the HTML parser finds in a page: the form with id [loginform],
    the hidden inputs of every form in document order, and the texts of
    the [div]s of class [error]. *)
Record page : Type := mkpage {
  loginform : option (list hidden_input);
  forms : list (list hidden_input);
  error_divs : list string
}.

Record response : Type := mkresponse {
  status_code : Z;
  url : string;       (* the final URL, after redirects *)
  soup : page         (* [BeautifulSoup(response.content, 'html.parser')] *)
}.

Inductive request : Type :=
  | GET (target : string)
  | POST (target : string) (data : gmap string json).

Inductive event : Type :=
  | Sent (r : request)
  | Slept (seconds : Z)
  | Logged (level message : string).

(** The network: [answer n r] is what the [n]-th request, [r], gets: an
    exception, by its message, or a response. *)
Record world : Type := mkworld {
  answer : nat → request → string + response;
  sent : nat;
  events : list event
}.

Record poster : Type := mkposter {
  site_url : string;
  username : string;
  password : string;
  category : string;
  status : string;
  timeout : Z
}.

(** [__init__], from the settings' values. *)
Definition init (site_url username password category status : string)
    (timeout : Z) : poster :=
  let site_url := Text.rstrip_slash site_url in
  let site_url :=
    if Text.ends_with "/wp-admin" site_url
    then Text.remove_all "/wp-admin" site_url
    else site_url in
  mkposter site_url username password category status timeout.

Definition emit (e : event) (w : world) : world :=
  mkworld (answer w) (sent w) (events w ++ [e]).

Definition log (level message : string) (w : world) : world :=
  emit (Logged level message) w.

(** [session.get] and [session.post], followed by [raise_for_status()]. *)
Definition send (r : request) (w : world) : outcome response * world :=
  let w' := mkworld (answer w) (S (sent w)) (events w ++ [Sent r]) in
  match answer w (sent w) r with
  | inl msg => (Raise (ApiError msg), w')
  | inr resp =>
      if ((400 <=? status_code resp) && (status_code resp <? 600))%Z
      then (Raise (ApiError "HTTPError"), w')
      else (Ok resp, w')
  end.

(** The loop that fills [hidden_fields]: inputs whose name and value are
    both present and not empty, a later one replacing an earlier one of
    the same name. *)
Fixpoint harvest (inputs : list hidden_input) (fields : gmap string string)
  : gmap string string :=
  match inputs with
  | [] => fields
  | (Some name, Some value) :: rest =>
      if negb (String.eqb name "") && negb (String.eqb value "")
      then harvest rest (<[name := value]> fields)
      else harvest rest fields
  | _ :: rest => harvest rest fields
  end.

Definition required_fields : list string := ["_wpnonce"; "user_ID"; "post_ID"].
Definition important_fields : list string :=
  ["_wpnonce"; "_wp_http_referer"; "user_ID"; "post_ID"; "post_type";
   "action"; "originalaction"].

Section Poster.
Variable self : poster.

Definition _validate_settings : bool :=
  negb (String.eqb (site_url self) "")
  && negb (String.eqb (username self) "")
  && negb (String.eqb (password self) "").

Definition login_url : string := site_url self ++ "/wp-login.php".

Definition login_data (hidden_fields : gmap string string)
  : gmap string json :=
  (JString <$> hidden_fields)
  ∪ {[ "log" := JString (username self);
       "pwd" := JString (password self);
       "wp-submit" := JString "ログイン";
       "redirect_to" := JString (site_url self ++ "/wp-admin/");
       "testcookie" := JString "1" ]}.

(** The body of [_login]'s [try]. *)
Definition _login_body (w : world) : outcome bool * world :=
  let w := log "INFO" "ログインページにアクセス" w in
  match send (GET login_url) w with
  | (Raise e, w) => (Raise e, w)
  | (Ok response, w) =>
      match loginform (soup response) with
      | None => (Ok false, log "ERROR" "ログインフォームが見つかりません" w)
      | Some inputs =>
          let hidden_fields := harvest inputs ∅ in
          let w := log "INFO" "ログイン実行中..." w in
          match send (POST login_url (login_data hidden_fields)) w with
          | (Raise e, w) => (Raise e, w)
          | (Ok response, w) =>
              if Text.contains "wp-admin" (url response)
                 && negb (Text.contains "login" (url response))
              then (Ok true, log "INFO" "ログイン成功" w)
              else (Ok false, log "ERROR" "ログイン失敗" w)
          end
      end
  end.

Definition _login (w : world) : outcome bool * world :=
  match _login_body w with
  | (Raise e, w) => (Ok false, log "ERROR" "ログインエラー詳細" w)
  | (Ok b, w) => (Ok b, w)
  end.

Definition post_status : string :=
  if String.eqb (status self) "publish" then "publish" else "draft".
Definition button_label : string :=
  if String.eqb (status self) "publish" then "公開" else "下書きとして保存".

(** [post_data], the essential hidden fields added to it. *)
Definition post_data (title content excerpt : json)
    (hidden_fields : gmap string string) : gmap string json :=
  (JString <$> filter (λ kv, kv.1 ∈ important_fields) hidden_fields)
  ∪ {[ "post_title" := title;
       "content" := content;
       "excerpt" := excerpt;
       "post_status" := JString post_status;
       "publish" := JString button_label;
       "save" := JString button_label ]}.

(** The body of [_post_article]'s [try]. *)
Definition _post_article_body (article_data : json) (w : world)
  : outcome bool * world :=
  let new_post_url := site_url self ++ "/wp-admin/post-new.php" in
  let w := log "INFO" "新規投稿ページにアクセス" w in
  match send (GET new_post_url) w with
  | (Raise e, w) => (Raise e, w)
  | (Ok response, w) =>
      let hidden_fields :=
        match forms (soup response) with
        | main_form :: _ => harvest main_form ∅
        | [] => ∅
        end in
      match filter (λ field, hidden_fields !! field = None) required_fields with
      | field :: _ => (Ok false, log "ERROR" "必須フィールドが見つかりません" w)
      | [] =>
          let hidden_fields := <["action" := "editpost"]> hidden_fields in
          let hidden_fields := <["originalaction" := "editpost"]> hidden_fields in
          let w := log "INFO" "取得したフィールド" w in
          match Py.item article_data "title" with
          | Raise e => (Raise e, w)
          | Ok title =>
          match Py.item article_data "content" with
          | Raise e => (Raise e, w)
          | Ok content =>
          match Py.get article_data "summary" (JString "") with
          | Raise e => (Raise e, w)
          | Ok excerpt =>
          let data := post_data title content excerpt hidden_fields in
          match Py.slice title 50 with
          | Raise e => (Raise e, w)
          | Ok _ =>
          let w := log "INFO" "投稿データ準備完了" w in
          let w := log "INFO" "投稿実行中..." w in
          match send (POST (site_url self ++ "/wp-admin/post.php") data) w with
          | (Raise e, w) => (Raise e, w)
          | (Ok response, w) =>
              let w := log "INFO" "投稿後のURL" w in
              if Text.contains "post.php" (url response)
                 && (Text.contains "message=6" (url response)
                     || Text.contains "message=1" (url response))
              then (Ok true, log "INFO" "投稿成功" w)
              else if Text.contains "edit.php" (url response)
              then (Ok true, log "INFO" "投稿成功（投稿一覧にリダイレクト）" w)
              else
                match error_divs (soup response) with
                | text :: _ => (Ok false, log "ERROR" ("投稿エラー: " ++ text) w)
                | [] => (Ok false, log "ERROR" "投稿失敗" w)
                end
          end end end end end
      end
  end.

Definition _post_article (article_data : json) (w : world)
  : outcome bool * world :=
  match _post_article_body article_data w with
  | (Raise e, w) => (Ok false, log "ERROR" "投稿エラー" w)
  | (Ok b, w) => (Ok b, w)
  end.

Definition _post_via_browser_automation (article_data : json) (w : world)
  : outcome bool * world :=
  let body :=
    let w := log "INFO" "WordPressブラウザ自動投稿開始" w in
    match _login w with
    | (Raise e, w) => (Raise e, w)
    | (Ok false, w) => (Ok false, w)
    | (Ok true, w) =>
        let w := emit (Slept 1) w in
        _post_article article_data w
    end in
  match body with
  | (Raise e, w) => (Ok false, log "ERROR" "ブラウザ自動化エラー" w)
  | (Ok b, w) => (Ok b, w)
  end.

Definition post_article (article_data : json) (w : world)
  : outcome bool * world :=
  if negb _validate_settings
  then (Ok false, log "WARNING" "WordPress設定が不完全です" w)
  else
    let w := log "INFO" "WordPress投稿開始（ブラウザ自動化モード）" w in
    _post_via_browser_automation article_data w.

End Poster.

Definition requests (w : world) : list request :=
  omap (λ e, match e with Sent r => Some r | _ => None end) (events w).

(** Vocabulary of the statements about publishing: an answer that makes
    [send] raise; the requests sent between two worlds, each with its
    answer; the two classifications of a final URL; the hidden fields of
    the editor page's first form. *)
Definition bad (a : string + response) : bool :=
  match a with
  | inl _ => true
  | inr resp => ((400 <=? status_code resp) && (status_code resp <? 600))%Z
  end.

Definition exchanges (w w' : world) : list (request * (string + response)) :=
  imap (λ i r, (r, answer w (sent w + i) r))
       (drop (length (requests w)) (requests w')).

Definition login_ok (resp : response) : bool :=
  Text.contains "wp-admin" (url resp) && negb (Text.contains "login" (url resp)).

Definition published (resp : response) : bool :=
  (Text.contains "post.php" (url resp)
   && (Text.contains "message=6" (url resp) || Text.contains "message=1" (url resp)))
  || Text.contains "edit.php" (url resp).

Definition editor_fields (editor : response) : gmap string string :=
  match forms (soup editor) with
  | main_form :: _ => harvest main_form ∅
  | [] => ∅
  end.

End WordPressPoster.

(** ** The background job ([app.py], [process_podcast_background]) *)

Module App.

Record log_line : Type := mklog {
  log_timestamp : string;
  log_level : string;
  log_message : string
}.

(** One entry of [app.processing_status]; [result] is the key that is
    absent until an article is stored. *)
Record task : Type := mktask {
  current_step : Z;
  total_steps : Z;
  step_name : string;
  status : string;
  error : option string;
  timestamp : option string;
  logs : list log_line;
  result : option json
}.

(** [{'logs': []}], the other keys being written by the [update] that
    follows at once. *)
Definition blank_task : task := mktask 0 0 "" "" None None [] None.

Inductive stage : Type := Download | Transcribe | Generate | Publish.

(** The collaborators of one job: the merged settings, the four stages,
    the wall clock ([now n] is the [n]-th value of
    [datetime.now().strftime('%H:%M:%S')]) and [str()] on values and on
    exceptions. *)
Record collaborators : Type := mkcollaborators {
  merged_settings : outcome json;
  download_audio : string → outcome string;
  transcribe_audio : string → json → outcome string;
  generate_article : string → string → outcome json;
  post_article : json → json → outcome bool;
  now : nat → string;
  str : json → string;
  str_exn : exn → string;
  str_len : string → string
}.

(** The registry, the number of clock reads, and the stages entered so
    far, each with the registry as it was at that moment. *)
Record state : Type := mkstate {
  processing_status : gmap string task;
  reads : nat;
  entered : list (stage * gmap string task)
}.

Section Job.
Variable C : collaborators.
Variable task_id : string.

Definition enter (s : stage) (st : state) : state :=
  mkstate (processing_status st) (reads st)
          (entered st ++ [(s, processing_status st)]).

Definition update_status (step total : Z) (step_name status_msg : string)
    (error : option string) (st : state) : state :=
  let timestamp := now C (reads st) in
  let reg := processing_status st in
  let reg := match reg !! task_id with
             | None => <[task_id := blank_task]> reg
             | Some _ => reg
             end in
  let reg :=
    alter (λ t, mktask step total step_name status_msg error (Some timestamp)
                       (logs t) (result t)) task_id reg in
  let truthy := match error with
                | Some e => negb (String.eqb e "")
                | None => false
                end in
  let line := mklog timestamp (if truthy then "ERROR" else "INFO")
                    (if truthy then default "" error else status_msg) in
  let reg :=
    alter (λ t, mktask (current_step t) (total_steps t) (App.step_name t)
                       (status t) (App.error t) (App.timestamp t)
                       (logs t ++ [line]) (result t)) task_id reg in
  mkstate reg (S (reads st)) (entered st).

(** [app.processing_status[task_id]['result'] = article_data] *)
Definition store_result (article_data : json) (st : state)
  : outcome state :=
  match processing_status st !! task_id with
  | None => Raise (KeyError task_id)
  | Some _ =>
      Ok (mkstate
            (alter (λ t, mktask (current_step t) (total_steps t) (step_name t)
                                (status t) (error t) (timestamp t) (logs t)
                                (Some article_data)) task_id
                   (processing_status st))
            (reads st) (entered st))
  end.

(** Step 4, after its first [update_status]. *)
Definition publish_step (merged article_data : json) (st : state)
  : outcome unit * state :=
  match Py.get merged "wordpress" (JDict []) with
  | Raise e => (Raise e, st)
  | Ok wp_settings =>
  match Py.get wp_settings "site_url" JNull with
  | Raise e => (Raise e, st)
  | Ok site_url =>
  match Py.get wp_settings "username" JNull with
  | Raise e => (Raise e, st)
  | Ok username =>
  match Py.get wp_settings "password" JNull with
  | Raise e => (Raise e, st)
  | Ok password =>
  match Py.get wp_settings "site_url" (JString "None") with
  | Raise e => (Raise e, st)
  | Ok shown =>
  match Py.slice shown 20 with
  | Raise e => (Raise e, st)
  | Ok _ =>
      if Py.truth site_url && Py.truth username && Py.truth password
      then
        let st := enter Publish st in
        match post_article C wp_settings article_data with
        | Ok true =>
            (Ok tt, update_status 4 4 "完了"
                      "すべての処理が完了しました！WordPress投稿成功" None st)
        | Ok false =>
            (Ok tt, update_status 4 4 "完了"
                      "記事生成は完了しましたが、WordPress投稿に失敗しました" None st)
        | Raise wp_error =>
            (Ok tt, update_status 4 4 "完了"
                      ("記事生成完了（WordPress投稿エラー: " ++ str_exn C wp_error ++ "）")
                      None st)
        end
      else
        (Ok tt, update_status 4 4 "完了"
                  "記事生成完了（WordPress設定なしのため投稿はスキップ）" None st)
  end end end end end end.

(** The body of the outer [try]: what it raised, if anything, the
    value of [article_data] if that local is bound by then, and the
    state. *)
Definition job_body (file_url episode_url : string) (st : state)
  : outcome unit * option json * state :=
  match merged_settings C with
  | Raise e => (Raise e, None, st)
  | Ok merged =>
  let st := update_status 1 4 "音声ダウンロード"
              ("音声をダウンロード中: " ++ file_url) None st in
  let st := enter Download st in
  match download_audio C file_url with
  | Raise e => (Raise e, None, st)
  | Ok audio_path =>
  let st := update_status 1 4 "音声ダウンロード" "音声ダウンロード完了" None st in
  let st := update_status 2 4 "文字起こし" "Whisperで文字起こし中..." None st in
  match Py.get merged "whisper" (JDict []) with
  | Raise e => (Raise e, None, st)
  | Ok whisper =>
  let st := enter Transcribe st in
  match transcribe_audio C audio_path whisper with
  | Raise e => (Raise e, None, st)
  | Ok transcript =>
  let st := update_status 2 4 "文字起こし"
              ("文字起こし完了: " ++ str_len C transcript ++ "文字") None st in
  let st := update_status 3 4 "ブログ記事生成" "Claude AIで記事生成中..." None st in
  let st := enter Generate st in
  match generate_article C transcript episode_url with
  | Raise e => (Raise e, None, st)
  | Ok article_data =>
  match Py.item article_data "title" with
  | Raise e => (Raise e, Some article_data, st)
  | Ok title =>
  let st := update_status 3 4 "ブログ記事生成"
              ("記事生成完了: " ++ str C title) None st in
  match store_result article_data st with
  | Raise e => (Raise e, Some article_data, st)
  | Ok st =>
  let st := update_status 4 4 "WordPress投稿" "WordPress投稿中..." None st in
  let '(r, st) := publish_step merged article_data st in
  (r, Some article_data, st)
  end end end end end end end.

(** [process_podcast_background], with the handler of the outer [try]. *)
Definition process_podcast_background (file_url episode_url : string)
    (st : state) : state :=
  match job_body file_url episode_url st with
  | (Ok _, _, st) => st
  | (Raise e, article_data, st) =>
      let error_msg := "処理エラー: " ++ str_exn C e in
      match processing_status st !! task_id with
      | None => st
      | Some _ =>
          let reg := processing_status st in
          let reg :=
            match article_data with
            | Some article_data =>
                alter (λ t, mktask (current_step t) (total_steps t)
                                   (step_name t) (status t) (error t)
                                   (timestamp t) (logs t) (Some article_data))
                      task_id reg
            | None => reg
            end in
          let reg :=
            alter (λ t, mktask (current_step t) (total_steps t) (step_name t)
                               "処理中にエラーが発生しました" (Some error_msg)
                               (timestamp t) (logs t) (result t))
                  task_id reg in
          let line := mklog (now C (reads st)) "ERROR" error_msg in
          let reg :=
            alter (λ t, mktask (current_step t) (total_steps t) (step_name t)
                               (status t) (error t) (timestamp t)
                               (logs t ++ [line]) (result t))
                  task_id reg in
          mkstate reg (S (reads st)) (entered st)
      end
  end.

End Job.

Definition stored_result (task_id : string) (reg : gmap string task)
  : option json :=
  reg !! task_id ≫= result.

End App.

(** ** Sample surroundings for the examples *)

Module Samples.
Import BlogGenerator.

Definition dq : string := String (Text.chr 34) "".
Definition field (k v : string) : string := dq ++ k ++ dq ++ ": " ++ dq ++ v ++ dq.

(** A well-formed answer of the backend, and what it decodes to. *)
Definition article_text : string :=
  "{" ++ field "title" "T" ++ ", " ++ field "content" "<p>short</p>" ++ "}".
Definition article_value : json :=
  JDict [("title", JString "T"); ("content", JString "<p>short</p>")].

(** [json.loads] on the texts the examples hand to it: the article, the
    empty object, and texts that are not JSON. *)
Definition loads (s : string) : option json :=
  if String.eqb s article_text then Some article_value
  else if String.eqb s "{}" then Some (JDict [])
  else None.

Definition says (text : string) : invocation := mkinvocation [text] None.

(** A backend that answers by a script, then fails for good. *)
Definition answers (script : list invocation) (n : nat) (_ : string)
  : invocation :=
  nth n script (mkinvocation [] (Some "connection closed")).

Definition client (min_characters : Z) (script : list invocation) : env :=
  mkenv min_characters "" (λ transcript _ _, transcript)
        (λ _ _ _, "expand") loads (answers script) (λ _, 1 # 2).


(** A ledger on 2024-11-04, 19:00 in Japan, with a disk that works. *)
Definition evening : N := 1730714400000000.
Definition ledger (f : UsageLimiter.log_file) : UsageLimiter.world :=
  UsageLimiter.mkworld f (λ _, evening) 0 (λ _, true) 0.

(** A site that answers by a script, then refuses connections. *)
Definition site (script : list (string + WordPressPoster.response))
    (n : nat) (_ : WordPressPoster.request)
  : string + WordPressPoster.response :=
  nth n script (inl "connection refused").
Definition net (script : list (string + WordPressPoster.response))
  : WordPressPoster.world :=
  WordPressPoster.mkworld (site script) 0 [].

Definition blog : WordPressPoster.poster :=
  WordPressPoster.init "https://blog.example/wp-admin/" "alice" "secret"
    "podcast" "draft" 30.
Definition blog_without_password : WordPressPoster.poster :=
  WordPressPoster.init "https://blog.example" "alice" "" "podcast" "draft" 30.

Definition login_inputs : list WordPressPoster.hidden_input :=
  [(Some "testcookie", Some "1")].
Definition login_page : WordPressPoster.response :=
  WordPressPoster.mkresponse 200 "https://blog.example/wp-login.php"
    (WordPressPoster.mkpage (Some login_inputs) [] []).
Definition login_again : WordPressPoster.response :=
  WordPressPoster.mkresponse 200 "https://blog.example/wp-login.php"
    (WordPressPoster.mkpage (Some login_inputs) [] ["Unknown username"]).
Definition dashboard : WordPressPoster.response :=
  WordPressPoster.mkresponse 200 "https://blog.example/wp-admin/"
    (WordPressPoster.mkpage None [] []).
Definition editor_without_nonce : WordPressPoster.response :=
  WordPressPoster.mkresponse 200 "https://blog.example/wp-admin/post-new.php"
    (WordPressPoster.mkpage None
       [[(Some "user_ID", Some "1"); (Some "post_ID", Some "42")]] []).

(** A job whose first three stages succeed. *)
Definition settings : json :=
  JDict [("wordpress",
          JDict [("site_url", JString "https://blog.example");
                 ("username", JString "alice");
                 ("password", JString "secret")])].
Definition job (publish : outcome bool) : App.collaborators :=
  App.mkcollaborators (Ok settings) (λ _, Ok "/tmp/podcast.m4a")
    (λ _ _, Ok "transcript") (λ _ _, Ok article_value) (λ _ _, publish)
    (λ _, "12:00:00") (λ _, "T") (λ _, "error") (λ _, "10").
Definition no_tasks : App.state := App.mkstate ∅ 0 [].

End Samples.

Module Prompt.

(** [episode_url.split('/')[-1]]: the text after the last slash. *)
Fixpoint last_segment (s : string) : string :=
  match s with
  | "" => ""
  | String c s' =>
      if Text.has_char Text.slash s' then last_segment s'
      else if Text.is_char Text.slash c then s' else s
  end.

(** [episode_url.split('/')[-1] if '/' in episode_url else episode_url],
    the identifier put into the embed snippet by [_build_prompt] and
    [_expand_article]. *)
Definition episode_id (episode_url : string) : string :=
  if Text.has_char Text.slash episode_url then last_segment episode_url
  else episode_url.

End Prompt.


Module Registry.
Import App.

(** What a job may do to the registry: leave every other task alone, only
    add lines to the log of its own task, and only add to the stages
    entered. *)
Definition extends (task_id : string) (st st' : state) : Prop :=
  (∀ id, id ≠ task_id → processing_status st' !! id = processing_status st !! id)
  ∧ (∀ t, processing_status st !! task_id = Some t →
       ∃ t' more, processing_status st' !! task_id = Some t'
                  ∧ logs t' = (logs t ++ more)%list)
  ∧ ∃ new, entered st' = (entered st ++ new)%list.

Definition has_task (task_id : string) (st : state) : Prop :=
  is_Some (processing_status st !! task_id).

Definition error_text (C : collaborators) (e : exn) : string :=
  "処理エラー: " ++ str_exn C e.

End Registry.

(** ** The result endpoint ([api_result] of [app.py]) *)

Module Api.
Import App.

Definition error_body (message : string) : json :=
  JDict [("error", JString message)].

(** [api_result(task_id)]: the body handed to [jsonify] and the status
    code; [registry] is [None] while [app] has no [processing_status]. *)
Definition api_result (task_id : string)
    (registry : option (gmap string task)) : json * Z :=
  match registry with
  | None => (error_body "タスクが見つかりません", 404%Z)
  | Some reg =>
      match reg !! task_id with
      | None => (error_body "タスクが見つかりません", 404%Z)
      | Some t =>
          match result t with
          | Some r =>
              if Py.truth r then (r, 200%Z)
              else (error_body "処理がまだ完了していません", 404%Z)
          | None => (error_body "処理がまだ完了していません", 404%Z)
          end
      end
  end.

End Api.

(** ** The audio source ([core/podcast_processor.py]) *)

Module PodcastProcessor.

Definition audio_extensions : list string :=
  [".mp3"; ".wav"; ".m4a"; ".mp4"; ".flac"; ".ogg"].

(** [any(url.lower().endswith(ext) for ext in audio_extensions)] *)
Definition _is_direct_file_url (url : string) : bool :=
  existsb (λ ext, Text.ends_with ext (Text.lower url)) audio_extensions.

(** [download_audio], the two downloaders being given; what they raise is
    raised again. *)
Definition download_audio (_download_direct_file _download_with_ytdlp
    : string → outcome string) (url : string) : outcome string :=
  if _is_direct_file_url url then _download_direct_file url
  else _download_with_ytdlp url.

End PodcastProcessor.

(** ** The settings ([config/settings.py])

    [DEFAULT_SETTINGS] is one dict object whose values are five dict
    objects. [DEFAULT_SETTINGS.copy()] is a new top-level dict holding the
    same five objects, so the store below keeps their contents by key, and
    a slot of a settings dict either is that shared object or owns a value
    of its own. In what follows [s] is a settings dict, of type
    [gmap string slot], and [σ] the store, of type
    [gmap string (list (string * json))]. *)

Module Settings.


Inductive slot : Type :=
  | Shared             (* the dict object [DEFAULT_SETTINGS[key]] *)
  | Own (v : json).


(** [d[k] = v] on a dict *)
Fixpoint set_item (k : string) (v : json) (d : list (string * json))
  : list (string * json) :=
  match d with
  | [] => [(k, v)]
  | (k', v') :: rest =>
      if String.eqb k' k then (k, v) :: rest else (k', v') :: set_item k v rest
  end.

(** [d.update(u)] for a dict [u] *)
Definition dict_update (u d : list (string * json)) : list (string * json) :=
  fold_left (λ d kv, set_item kv.1 kv.2 d) u d.

(** The five dict objects as the module creates them. *)
Definition DEFAULT_SETTINGS : gmap string (list (string * json)) :=
  {[ "whisper" := [("model", JString "large"); ("language", JString "ja")];
     "claude" := [("model", JString "claude-sonnet-4-20250514");
                  ("temperature", JFloat (1 # 2));
                  ("max_tokens", JInt 8000)];
     "article" := [("min_characters", JInt 4000);
                   ("default_style", JString "親しみやすい「です・ます」調");
                   ("reference_site", JString "");
                   ("custom_prompt", JString "")];
     "wordpress" := [("site_url", JString ""); ("username", JString "");
                     ("password", JString ""); ("timeout", JInt 30);
                     ("category", JString "ポッドキャスト");
                     ("status", JString "draft")];
     "limits" := [("daily_limit", JInt 5); ("timezone", JString "Asia/Tokyo")] ]}.

(** [DEFAULT_SETTINGS.copy()] *)
Definition copy (σ : gmap string (list (string * json))) : gmap string slot := (λ _, Shared) <$> σ.

Inductive user_file : Type :=
  | NoUserFile
  | BrokenUserFile          (* [open] or [json.load] raises *)
  | Loaded (v : json).

Inductive env_file : Type :=
  | NoEnvFile
  | UnreadableEnvFile
  | Lines (lines : list string).

(** One round of the merge loop. *)
Definition merge_entry (acc : gmap string slot * gmap string (list (string * json))) (kv : string * json)
  
  : gmap string slot * gmap string (list (string * json)) :=
  let '(s, σ) := acc in
  let '(key, value) := kv in
  match s !! key, value with
  | Some Shared, JDict u => (s, alter (dict_update u) key σ)
  | Some (Own (JDict d)), JDict u => (<[key := Own (JDict (dict_update u d))]> s, σ)
  | _, _ => (<[key := Own value]> s, σ)
  end.

(** [settings['wordpress'][k] = v] *)
Definition set_wordpress (k v : string) (acc : gmap string slot * gmap string (list (string * json)))
  : outcome (gmap string slot * gmap string (list (string * json))) :=
  let '(s, σ) := acc in
  match s !! "wordpress" with
  | Some Shared => Ok (s, alter (set_item k (JString v)) "wordpress" σ)
  | Some (Own (JDict d)) =>
      Ok (<["wordpress" := Own (JDict (set_item k (JString v) d))]> s, σ)
  | Some (Own _) => Raise TypeError
  | None => Raise (KeyError "wordpress")
  end.

(** [line.split('=', 1)[1]] for a line that holds a [=] *)
Fixpoint after_equals (line : string) : string :=
  match line with
  | "" => ""
  | String c rest => if Text.is_char 61 c then rest else after_equals rest
  end.

(** One round of the loop over the lines of [.env]. *)
Definition env_line (line : string) (acc : gmap string slot * gmap string (list (string * json)))
  : outcome (gmap string slot * gmap string (list (string * json))) :=
  let line := Text.strip line in
  if String.prefix "WORDPRESS_URL=" line
  then set_wordpress "site_url" (Text.strip (after_equals line)) acc
  else if String.prefix "WORDPRESS_USERNAME=" line
  then set_wordpress "username" (Text.strip (after_equals line)) acc
  else if String.prefix "WORDPRESS_PASSWORD=" line
  then set_wordpress "password" (Text.strip (after_equals line)) acc
  else Ok acc.

(** The loop over the lines; when a round raises, the store is as that
    round found it. *)
Fixpoint env_lines (lines : list string) (acc : gmap string slot * gmap string (list (string * json)))
  : outcome (gmap string slot) * gmap string (list (string * json)) :=
  match lines with
  | [] => (Ok acc.1, acc.2)
  | line :: rest =>
      match env_line line acc with
      | Ok acc => env_lines rest acc
      | Raise e => (Raise e, acc.2)
      end
  end.

(** The body of the [try] of [load_settings]. *)
Definition load_body (user : user_file) (env : env_file) (σ : gmap string (list (string * json)))
  : outcome (gmap string slot) * gmap string (list (string * json)) :=
  let merged :=
    match user with
    | NoUserFile => (Ok (copy σ), σ)
    | BrokenUserFile => (Raise (PlainException "user_settings.json"), σ)
    | Loaded (JDict entries) =>
        let '(s, σ) := fold_left merge_entry entries (copy σ, σ) in (Ok s, σ)
    | Loaded _ => (Raise (AttributeError "items"), σ)
    end in
  match merged with
  | (Raise e, σ) => (Raise e, σ)
  | (Ok s, σ) =>
      match env with
      | NoEnvFile => (Ok s, σ)
      | UnreadableEnvFile => (Raise (PlainException ".env"), σ)
      | Lines lines => env_lines lines (s, σ)
      end
  end.

(** [load_settings()]: the settings returned and [DEFAULT_SETTINGS] as the
    call leaves it. *)
Definition load_settings (user : user_file) (env : env_file) (σ : gmap string (list (string * json)))
  
  : gmap string slot * gmap string (list (string * json)) :=
  match load_body user env σ with
  | (Ok s, σ) => (s, σ)
  | (Raise _, σ) => (copy σ, σ)
  end.

(** [settings[name].get(k)] for settings returned by [load_settings] *)
Definition read (acc : gmap string slot * gmap string (list (string * json))) (name k : string) : option json :=
  match acc.1 !! name with
  | Some Shared => acc.2 !! name ≫= Py.assoc k
  | Some (Own (JDict d)) => Py.assoc k d
  | _ => None
  end.



End Settings.

(** ** The endpoint that starts a job ([api_process] of [app.py]) *)

Module Server.
Import UsageLimiter App Api.

(** A request: [request.remote_addr] and what [request.get_json()]
    gives. *)
Record request : Type := mkrequest {
  remote_addr : option string;
  get_json : outcome json
}.

(** The arguments of a started [process_podcast_background] thread. *)
Record job_args : Type := mkargs {
  arg_task_id : string;
  arg_file_url : string;
  arg_episode_url : string;
  arg_user_settings : json
}.

(** The ledger, [app.processing_status] ([None] while [app] has no such
    attribute) and the threads started so far. *)
Record server : Type := mkserver {
  ledger : world;
  registry : option (gmap string task);
  started : list job_args
}.

Definition started_task : task :=
  mktask 1 4 "処理開始" "処理を開始しました" None None [] None.

(** [data.get(key, '').strip()] *)
Definition stripped (data : json) (key : string) : outcome string :=
  match Py.get data key (JString "") with
  | Raise e => Raise e
  | Ok (JString s) => Ok (Text.strip s)
  | Ok _ => Raise (AttributeError "strip")
  end.

Definition server_error : json * Z :=
  (error_body "サーバーエラーが発生しました", 500%Z).

Section Process.
Variable daily_limit : Z.
Variable str_int : Z → string.   (* an [int] inside an f-string *)
Variable uuid4 : string.         (* [str(uuid.uuid4())] *)

Definition api_process (req : request) (s : server) : (json * Z) * server :=
  let client_ip := remote_addr req in
  let '(usage_info, w) := get_usage_info daily_limit client_ip (ledger s) in
  let s := mkserver w (registry s) (started s) in
  if negb (can_use usage_info)
  then ((error_body ("本日の利用上限（" ++ str_int (info_daily_limit usage_info)
                     ++ "回）に達しました。" ++ next_reset usage_info
                     ++ "にリセットされます。"), 429%Z), s)
  else
  match get_json req with
  | Raise _ => (server_error, s)
  | Ok data =>
  match stripped data "file_url" with
  | Raise _ => (server_error, s)
  | Ok file_url =>
  match stripped data "episode_url" with
  | Raise _ => (server_error, s)
  | Ok episode_url =>
  if String.eqb file_url ""
  then ((error_body "ファイルURLを入力してください", 400%Z), s)
  else if negb (String.prefix "http" file_url)
  then ((error_body "有効なURLを入力してください", 400%Z), s)
  else
  let '((success, message), w) := use_quota daily_limit client_ip (ledger s) in
  let s := mkserver w (registry s) (started s) in
  if negb success then ((error_body message, 429%Z), s)
  else
  match Py.get data "settings" (JDict []) with
  | Raise _ => (server_error, s)
  | Ok user_settings =>
  let task_id := uuid4 in
  let reg := default ∅ (registry s) in
  let reg := <[task_id := started_task]> reg in
  ((JDict [("task_id", JString task_id);
           ("message", JString "処理を開始しました")], 200%Z),
   mkserver (ledger s) (Some reg)
            (started s ++ [mkargs task_id file_url episode_url user_settings]))
  end end end end.

End Process.
End Server.

(** ** More sample surroundings *)

Module MoreSamples.
Import Samples.

(** The same hour one day later, and a ledger whose clock shows it. *)
Definition next_evening : N := 1730800800000000.
Definition ledger_at (t : N) (f : UsageLimiter.log_file) : UsageLimiter.world :=
  UsageLimiter.mkworld f (λ _, t) 0 (λ _, true) 0.

(** A server that has started nothing, and two requests. *)
Definition idle (f : UsageLimiter.log_file) : Server.server :=
  Server.mkserver (ledger f) None [].
Definition show (_ : Z) : string := "5".
Definition good_request : Server.request :=
  Server.mkrequest (Some "203.0.113.7")
    (Ok (JDict [("file_url", JString " https://example.org/a.mp3 ")])).

(** An editor page with the three required fields, and the page a
    published post redirects to. *)
Definition editor_page : WordPressPoster.response :=
  WordPressPoster.mkresponse 200 "https://blog.example/wp-admin/post-new.php"
    (WordPressPoster.mkpage None
       [[(Some "_wpnonce", Some "abc"); (Some "user_ID", Some "1");
         (Some "post_ID", Some "42")]] []).
Definition posted_page : WordPressPoster.response :=
  WordPressPoster.mkresponse 200
    "https://blog.example/wp-admin/post.php?post=42&action=edit&message=6"
    (WordPressPoster.mkpage None [] []).

(** Jobs that fail at the download, and before it. *)
Definition job_without_audio : App.collaborators :=
  App.mkcollaborators (Ok settings) (λ _, Raise (ApiError "404 Not Found"))
    (λ _ _, Ok "transcript") (λ _ _, Ok article_value) (λ _ _, Ok true)
    (λ _, "12:00:00") (λ _, "T") (λ _, "404 Not Found") (λ _, "10").
Definition job_without_settings : App.collaborators :=
  App.mkcollaborators (Raise (PlainException "settings")) (λ _, Ok "/tmp/podcast.m4a")
    (λ _ _, Ok "transcript") (λ _ _, Ok article_value) (λ _ _, Ok true)
    (λ _, "12:00:00") (λ _, "T") (λ _, "settings") (λ _, "10").

Definition wordpress_entries : list (string * json) :=
  [("site_url", JString "https://blog.example");
   ("username", JString "alice");
   ("password", JString "secret")].
Definition entries_without_password : list (string * json) :=
  [("site_url", JString "https://blog.example");
   ("username", JString "alice")].
Definition settings_without_password : json :=
  JDict [("wordpress", JDict entries_without_password)].

(** Two user settings files. *)
Definition user_password : list (string * json) :=
  [("wordpress", JDict [("password", JString "secret")])].

End MoreSamples.

(** * Properties *)

Section CalendarFacts.
Import Calendar.
Local Open Scope N_scope.

Lemma days_in_month_le y m : days_in_month y m <= 31.
Proof.
  unfold days_in_month.
  repeat match goal with |- context [if ?b then _ else _] => destruct b end; lia.
Qed.

Lemma next_day_valid d : valid d -> valid (next_day d).
Proof.
  unfold valid, next_day. intros [Hm Hd].
  pose proof (days_in_month_le (year d) (month d)).
  destruct (N.ltb_spec (day d) (days_in_month (year d) (month d))); simpl; [lia|].
  destruct (N.ltb_spec (month d) 12); simpl; lia.
Qed.

Lemma next_day_stamp d : valid d -> stamp d < stamp (next_day d).
Proof.
  unfold valid, next_day, stamp. intros [Hm Hd].
  destruct (N.ltb_spec (day d) (days_in_month (year d) (month d))); simpl; [lia|].
  destruct (N.ltb_spec (month d) 12); simpl; lia.
Qed.

Lemma fromordinal_succ n : fromordinal (N.succ n) = next_day (fromordinal n).
Proof. unfold fromordinal. apply N.iter_succ. Qed.

Lemma fromordinal_valid n : valid (fromordinal n).
Proof.
  induction n as [|n IH] using N.peano_ind.
  - unfold valid; simpl; lia.
  - rewrite fromordinal_succ. by apply next_day_valid.
Qed.

Lemma fromordinal_stamp_mono n k :
  stamp (fromordinal n) <= stamp (fromordinal (n + k)).
Proof.
  induction k as [|k IH] using N.peano_ind.
  - rewrite N.add_0_r. lia.
  - rewrite N.add_succ_r, fromordinal_succ.
    pose proof (next_day_stamp _ (fromordinal_valid (n + k))). lia.
Qed.

Lemma digit_compare i j :
  i < 10 -> j < 10 -> Ascii.compare (digit i) (digit j) = (i ?= j).
Proof.
  intros Hi Hj. unfold Ascii.compare, digit.
  rewrite !N_ascii_embedding by lia.
  destruct (N.compare_spec i j); [subst; apply N.compare_refl
    | apply N.compare_lt_iff; lia | apply N.compare_gt_iff; lia].
Qed.

Lemma pad2_app a s :
  pad2 a ++ s = String (digit (a / 10)) (String (digit (a mod 10)) s).
Proof. reflexivity. Qed.

Lemma hyphen_compare s t :
  String.compare ("-" ++ s) ("-" ++ t) = String.compare s t.
Proof. reflexivity. Qed.

Lemma pad2_compare a b s t :
  a < 100 -> b < 100 ->
  String.compare (pad2 a ++ s) (pad2 b ++ t)
  = match a ?= b with Eq => String.compare s t | c => c end.
Proof.
  intros Ha Hb. rewrite !pad2_app. cbn [String.compare].
  pose proof (N.div_mod a 10 ltac:(lia)). pose proof (N.mod_lt a 10 ltac:(lia)).
  pose proof (N.div_mod b 10 ltac:(lia)). pose proof (N.mod_lt b 10 ltac:(lia)).
  assert (a / 10 < 10) by (apply N.Div0.div_lt_upper_bound; lia).
  assert (b / 10 < 10) by (apply N.Div0.div_lt_upper_bound; lia).
  rewrite !digit_compare by assumption.
  set (qa := a / 10) in *. set (ra := a mod 10) in *.
  set (qb := b / 10) in *. set (rb := b mod 10) in *.
  clearbody qa ra qb rb.
  destruct (N.compare_spec qa qb) as [E|L|G];
    destruct (N.compare_spec ra rb) as [E'|L'|G'];
    destruct (N.compare_spec a b) as [E''|L''|G'']; try reflexivity; lia.
Qed.

Lemma year_le_stamp a b : valid a -> valid b -> stamp a <= stamp b -> year a <= year b.
Proof. unfold valid, stamp. lia. Qed.

Lemma format_ymd_groups d :
  format_ymd d
  = pad2 (year d / 100) ++ pad2 (year d mod 100) ++ "-" ++ pad2 (month d)
      ++ "-" ++ pad2 (day d) ++ "".
Proof. reflexivity. Qed.

(** Within four-digit years the text of a date orders as the date does. *)
Lemma format_ymd_mono a b :
  valid a -> valid b -> year b <= 9999 -> stamp a <= stamp b ->
  String.ltb (format_ymd b) (format_ymd a) = false.
Proof.
  intros Va Vb Hy Hs.
  pose proof (year_le_stamp _ _ Va Vb Hs) as Hya.
  unfold String.ltb. rewrite !format_ymd_groups.
  destruct Va as [Hma Hda], Vb as [Hmb Hdb]. unfold stamp in Hs.
  pose proof (N.div_mod (year a) 100 ltac:(lia)) as Ea.
  pose proof (N.div_mod (year b) 100 ltac:(lia)) as Eb.
  pose proof (N.mod_lt (year a) 100 ltac:(lia)).
  pose proof (N.mod_lt (year b) 100 ltac:(lia)).
  assert (year a / 100 < 100) by (apply N.Div0.div_lt_upper_bound; lia).
  assert (year b / 100 < 100) by (apply N.Div0.div_lt_upper_bound; lia).
  set (ha := year a / 100) in *. set (la := year a mod 100) in *.
  set (hb := year b / 100) in *. set (lb := year b mod 100) in *.
  clearbody ha la hb lb.
  rewrite pad2_compare by lia.
  destruct (N.compare_spec hb ha); [|lia|done].
  rewrite pad2_compare by lia.
  destruct (N.compare_spec lb la); [|lia|done].
  rewrite hyphen_compare, pad2_compare by lia.
  destruct (N.compare_spec (month b) (month a)); [|lia|done].
  rewrite hyphen_compare, pad2_compare by lia.
  destruct (N.compare_spec (day b) (day a)); [done|lia|done].
Qed.
End CalendarFacts.

Section LedgerFacts.
Import Calendar UsageLimiter.
Variable daily_limit : Z.

Lemma cutoff_ordinal r :
  ordinal_of (epoch_us + r + 9 * hour_us - 7 * day_us)%N = (jst_ordinal r - 7)%N.
Proof.
  unfold jst_ordinal, ordinal_of, epoch_us, epoch_ordinal.
  set (D := day_us). assert (HD : D ≠ 0%N) by (unfold D, day_us; lia).
  set (x := (719162 * D + r + 9 * hour_us - 7 * D)%N).
  replace (719162 * D + r + 9 * hour_us)%N with (x + 7 * D)%N by (unfold x; lia).
  rewrite N.div_add by done. generalize (x / D)%N. intros q. lia.
Qed.

Lemma stamp_mono n m : (n <= m)%N → (stamp (fromordinal n) <= stamp (fromordinal m))%N.
Proof.
  intros H. replace m with (n + (m - n))%N by lia. apply fromordinal_stamp_mono.
Qed.

Lemma today_kept d :
  (year (fromordinal d) <= 9999)%N →
  String.ltb (day_key d) (format_ymd (fromordinal (d - 7))) = false.
Proof.
  intros Hy. apply format_ymd_mono; auto using fromordinal_valid.
  apply stamp_mono. lia.
Qed.

Lemma today_key_on_day w d :
  on_day w d → get_today_key w
  = (day_key d, mkworld (file w) (clock w) (S (ticks w)) (disk w) (writes w)).
Proof.
  intros H. unfold get_today_key, utcnow, strftime_ymd, date_of, day_key.
  specialize (H (ticks w)). unfold jst_ordinal in H. by rewrite H.
Qed.

Lemma on_day_clock w w' d : clock w' = clock w → on_day w d → on_day w' d.
Proof. unfold on_day. by intros ->. Qed.

Lemma usage_info_on_day ip w d :
  on_day w d →
  ∃ nr niso,
    get_usage_info daily_limit ip w
    = (mkinfo (used (day_key d) w) daily_limit
         (Z.max 0 (daily_limit - used (day_key d) w))
         (0 <? Z.max 0 (daily_limit - used (day_key d) w))%Z nr niso,
       mkworld (file w) (clock w) (S (S (ticks w))) (disk w) (writes w)).
Proof.
  intros H. unfold get_usage_info. rewrite (today_key_on_day _ _ H). cbn.
  eexists _, _. reflexivity.
Qed.

Lemma updated_lookup (log : gmap string day_record) k z f g :
  alter g k (alter f k (match log !! k with
                        | None => <[k := z]> log
                        | Some _ => log
                        end)) !! k
  = Some (g (f (default z (log !! k)))).
Proof.
  rewrite !lookup_alter_eq.
  destruct (log !! k) as [r|] eqn:E; cbn.
  - by rewrite E.
  - by rewrite lookup_insert_eq.
Qed.

Lemma bump_ip_total ip r : total (bump_ip ip r) = total r.
Proof. unfold bump_ip. by destruct (truthy ip). Qed.

Lemma use_quota_on_day ip w d :
  on_day w d →
  let k := day_key d in
  let w' := (use_quota daily_limit ip w).2 in
  clock w' = clock w ∧ disk w' = disk w ∧
  if (use_quota daily_limit ip w).1.1
  then (used k w < daily_limit)%Z ∧
       ∃ log, file w' = Stored log ∧
              (∀ r, log !! k = Some r → r = new_record ip k w) ∧
              ((year (fromordinal d) <= 9999)%N →
               log !! k = Some (new_record ip k w))
  else file w' = file w.
Proof.
  intros H k.
  pose proof (H (ticks w)) as H0. pose proof (H (S (S (ticks w)))) as H2.
  pose proof (H (S (S (S (ticks w))))) as H3.
  pose proof (cutoff_ordinal (clock w (S (S (S (ticks w)))))) as Hc.
  rewrite H3 in Hc. unfold jst_ordinal in *.
  unfold use_quota, get_usage_info, get_today_key, cleanup_old_logs,
    save_usage_log, utcnow, strftime_ymd, date_of. cbn.
  rewrite H0, H2, Hc. fold (day_key d). fold k.
  unfold load_usage_log. cbn. fold (load_usage_log w).
  fold (today_record k w). fold (used k w).
  destruct (Z.ltb_spec 0 (Z.max 0 (daily_limit - used k w))) as [Hlt|Hge]; cbn;
    [|done].
  destruct (disk w (writes w)); cbn; [|done].
  split; [done|]. split; [done|]. split; [lia|].
  eexists. split; [done|]. split.
  - intros r Hr. apply map_lookup_filter_Some in Hr as [Hr _].
    rewrite updated_lookup in Hr. by injection Hr as <-.
  - intros Hy. apply map_lookup_filter_Some. split.
    + by rewrite updated_lookup.
    + cbn. by apply today_kept.
Qed.

End LedgerFacts.
Section LedgerClaims.
Import Calendar UsageLimiter.
Variable daily_limit : Z.



Lemma used_after_success ip w d :
  on_day w d → (year (fromordinal d) <= 9999)%N →
  (use_quota daily_limit ip w).1.1 = true →
  used (day_key d) (use_quota daily_limit ip w).2 = (used (day_key d) w + 1)%Z.
Proof.
  intros H Hy Hok. destruct (use_quota_on_day daily_limit ip w d H) as (_ & _ & Hc).
  rewrite Hok in Hc. destruct Hc as (_ & log & Hf & _ & Hl).
  unfold used at 1, today_record, load_usage_log. rewrite Hf, (Hl Hy). cbn.
  unfold new_record. by rewrite bump_ip_total.
Qed.








End LedgerClaims.

Section CalendarOrder.
Import Calendar.
Local Open Scope N_scope.

Lemma fromordinal_stamp_lt n m :
  n < m -> stamp (fromordinal n) < stamp (fromordinal m).
Proof.
  intros H. replace m with (N.succ (n + (m - n - 1))) by lia.
  rewrite fromordinal_succ.
  pose proof (fromordinal_stamp_mono n (m - n - 1)).
  pose proof (next_day_stamp _ (fromordinal_valid (n + (m - n - 1)))). lia.
Qed.


(** Within four-digit years an earlier date has the smaller text. *)
Lemma format_ymd_lt a b :
  valid a -> valid b -> year b <= 9999 -> stamp a < stamp b ->
  String.ltb (format_ymd a) (format_ymd b) = true.
Proof.
  intros Va Vb Hy Hs.
  assert (Hya : year a <= year b) by (apply year_le_stamp; auto; lia).
  unfold String.ltb. rewrite !format_ymd_groups.
  destruct Va as [Hma Hda], Vb as [Hmb Hdb]. unfold stamp in Hs.
  pose proof (N.div_mod (year a) 100 ltac:(lia)) as Ea.
  pose proof (N.div_mod (year b) 100 ltac:(lia)) as Eb.
  pose proof (N.mod_lt (year a) 100 ltac:(lia)).
  pose proof (N.mod_lt (year b) 100 ltac:(lia)).
  assert (year a / 100 < 100) by (apply N.Div0.div_lt_upper_bound; lia).
  assert (year b / 100 < 100) by (apply N.Div0.div_lt_upper_bound; lia).
  set (ha := year a / 100) in *. set (la := year a mod 100) in *.
  set (hb := year b / 100) in *. set (lb := year b mod 100) in *.
  clearbody ha la hb lb.
  rewrite pad2_compare by lia.
  destruct (N.compare_spec ha hb); [|done|lia].
  rewrite pad2_compare by lia.
  destruct (N.compare_spec la lb); [|done|lia].
  rewrite hyphen_compare, pad2_compare by lia.
  destruct (N.compare_spec (month a) (month b)); [|done|lia].
  rewrite hyphen_compare, pad2_compare by lia.
  destruct (N.compare_spec (day a) (day b)); [lia|done|lia].
Qed.
End CalendarOrder.

Lemma string_compare_refl s : String.compare s s = Eq.
Proof.
  induction s as [|c s IH]; [done|]. cbn.
  unfold Ascii.compare. by rewrite N.compare_refl.
Qed.

Section Retention.
Import Calendar UsageLimiter.
Variable daily_limit : Z.

(** The log a successful consume writes, key by key. *)
Lemma use_quota_writes ip w d :
  on_day w d →
  (use_quota daily_limit ip w).1.1 = true →
  ∃ log, file (use_quota daily_limit ip w).2 = Stored log ∧
    ∀ k, log !! k =
         if String.ltb k (day_key (d - 7)) then None
         else if decide (k = day_key d) then Some (new_record ip (day_key d) w)
         else load_usage_log w !! k.
Proof.
  intros H.
  pose proof (H (ticks w)) as H0. pose proof (H (S (S (ticks w)))) as H2.
  pose proof (H (S (S (S (ticks w))))) as H3.
  pose proof (cutoff_ordinal (clock w (S (S (S (ticks w)))))) as Hc.
  rewrite H3 in Hc. unfold jst_ordinal in *.
  unfold use_quota, get_usage_info, get_today_key, cleanup_old_logs,
    save_usage_log, utcnow, strftime_ymd, date_of. cbn.
  rewrite H0, H2, Hc. fold (day_key d). fold (day_key (d - 7)).
  set (k0 := day_key d). set (c := day_key (d - 7)).
  unfold load_usage_log. cbn. fold (load_usage_log w).
  fold (today_record k0 w). fold (used k0 w).
  destruct (0 <? Z.max 0 (daily_limit - used k0 w))%Z; cbn; [|done].
  destruct (disk w (writes w)); cbn; [|done].
  intros _. eexists. split; [done|]. intros k.
  destruct (String.ltb k c) eqn:Hk.
  - apply map_lookup_filter_None. right. intros x _. cbn. by rewrite Hk.
  - destruct (decide (k = k0)) as [->|Hne].
    + apply map_lookup_filter_Some. split; [|done].
      by rewrite updated_lookup.
    + destruct (load_usage_log w !! k) as [r|] eqn:Hr.
      * apply map_lookup_filter_Some. split; [|done].
        rewrite !lookup_alter_ne by done.
        destruct (load_usage_log w !! k0); [done|].
        by rewrite lookup_insert_ne.
      * apply map_lookup_filter_None. left.
        rewrite !lookup_alter_ne by done.
        destruct (load_usage_log w !! k0); [done|].
        by rewrite lookup_insert_ne.
Qed.


(** X2. On one day of a four-digit year, a successful use_quota writes a record
    for today whose total is one more than before and in which the count of the
    calling address, when an address is given and not empty, is one more than
    before while every other address keeps its count; without an address the
    per-address counts are unchanged. *)
Theorem consume_counts_the_client ip w d :
  on_day w d → (year (fromordinal d) <= 9999)%N →
  (use_quota daily_limit ip w).1.1 = true →
  ∃ log rec, file (use_quota daily_limit ip w).2 = Stored log ∧
    log !! day_key d = Some rec ∧
    total rec = (used (day_key d) w + 1)%Z ∧
    let before := ips (today_record (day_key d) w) in
    match truthy ip with
    | Some a => ips rec !! a = Some (default 0%Z (before !! a) + 1)%Z
                ∧ ∀ b, b ≠ a → ips rec !! b = before !! b
    | None => ips rec = before
    end.
Proof.
  intros H Hy Hok. destruct (use_quota_writes ip w d H Hok) as (log & Hf & Hl).
  exists log, (new_record ip (day_key d) w). split; [done|].
  split.
  - rewrite Hl, today_kept by done. by rewrite decide_True.
  - unfold new_record. rewrite bump_ip_total. split; [done|].
    unfold bump_ip. cbn. destruct (truthy ip) as [a|]; [|done]. cbn.
    split.
    + rewrite lookup_alter_eq.
      destruct (ips (today_record (day_key d) w) !! a) as [n|] eqn:Ha; cbn.
      * by rewrite Ha.
      * by rewrite lookup_insert_eq.
    + intros b Hb. rewrite lookup_alter_ne by done.
      destruct (ips (today_record (day_key d) w) !! a); [done|].
      by rewrite lookup_insert_ne.
Qed.
End Retention.

Section Rollover.
Import Calendar UsageLimiter.
Variable daily_limit : Z.


(** X4. After a successful use_quota on day d, a get_usage_info on day d+1
    reports as used only what the earlier log already held for day d+1: the uses
    of day d do not count against the next day. *)
Theorem next_day_starts_fresh ip w d w2 :
  on_day w d → (year (fromordinal (d + 1)) <= 9999)%N →
  (use_quota daily_limit ip w).1.1 = true →
  file w2 = file (use_quota daily_limit ip w).2 →
  on_day w2 (d + 1) →
  let info := (get_usage_info daily_limit ip w2).1 in
  total_used info = used (day_key (d + 1)) w
  ∧ remaining info = Z.max 0 (daily_limit - used (day_key (d + 1)) w).
Proof.
  intros H Hy Hok Hfile H2. cbn zeta.
  destruct (usage_info_on_day daily_limit ip w2 (d + 1) H2) as (nr & niso & ->).
  cbn [fst total_used remaining].
  destruct (use_quota_writes daily_limit ip w d H Hok) as (log & Hf & Hl).
  assert (Hu : used (day_key (d + 1)) w2 = used (day_key (d + 1)) w).
  { unfold used, today_record. unfold load_usage_log at 1.
    rewrite Hfile, Hf, Hl.
    assert (Hkeep : String.ltb (day_key (d + 1)) (day_key (d - 7)) = false).
    { apply format_ymd_mono; auto using fromordinal_valid.
      apply stamp_mono. lia. }
    rewrite Hkeep.
    destruct (decide (day_key (d + 1) = day_key d)) as [Heq|]; [|done].
    exfalso.
    pose proof (format_ymd_lt (fromordinal d) (fromordinal (d + 1))
                  (fromordinal_valid d) (fromordinal_valid (d + 1)) Hy
                  (fromordinal_stamp_lt d (d + 1) ltac:(lia))) as Hlt.
    unfold day_key in Heq. rewrite Heq in Hlt. unfold String.ltb in Hlt.
    by rewrite string_compare_refl in Hlt. }
  by rewrite Hu.
Qed.
End Rollover.

Section ServerFacts.
Import Calendar UsageLimiter App Api Server.
Variable daily_limit : Z.
Variable str_int : Z → string.
Variable uuid4 : string.





(** X7. On one day of a four-digit year, a request answered 200 has used exactly
    one unit of the day's quota, which stays within the limit, has put a fresh
    task at step 1 of 4 with an empty log into the registry under the new id,
    and has started one job with the stripped URLs, the file URL beginning with
    http. *)
Theorem accepted_request_starts_one_job req s d :
  on_day (ledger s) d → (year (fromordinal d) <= 9999)%N →
  let out := api_process daily_limit str_int uuid4 req s in
  out.1.2 = 200%Z →
  ∃ data file_url episode_url user_settings,
    get_json req = Ok data
    ∧ stripped data "file_url" = Ok file_url
    ∧ stripped data "episode_url" = Ok episode_url
    ∧ String.prefix "http" file_url = true
    ∧ registry out.2 = Some (<[uuid4 := started_task]> (default ∅ (registry s)))
    ∧ started out.2
      = (started s ++ [mkargs uuid4 file_url episode_url user_settings])%list
    ∧ used (day_key d) (ledger out.2) = (used (day_key d) (ledger s) + 1)%Z
    ∧ (used (day_key d) (ledger out.2) <= daily_limit)%Z.
Proof.
  intros Hday Hyear. cbn zeta. unfold api_process.
  destruct (usage_info_on_day daily_limit (remote_addr req) (ledger s) d Hday)
    as (nr & niso & ->).
  cbn [can_use ledger registry started info_daily_limit next_reset].
  set (w1 := mkworld _ _ _ _ _).
  assert (Hday1 : on_day w1 d) by (by apply (on_day_clock (ledger s))).
  assert (Hused1 : used (day_key d) w1 = used (day_key d) (ledger s)) by done.
  destruct (negb _); [done|].
  destruct (get_json req) as [data|e]; [|done].
  destruct (stripped data "file_url") as [file_url|e] eqn:Hfile; [|done].
  destruct (stripped data "episode_url") as [episode_url|e] eqn:Hepisode; [|done].
  destruct (String.eqb file_url ""); [done|].
  destruct (String.prefix "http" file_url) eqn:Hhttp; [|done]. cbn [negb].
  destruct (use_quota_on_day daily_limit (remote_addr req) w1 d Hday1)
    as (_ & _ & Hcase).
  pose proof (used_after_success daily_limit (remote_addr req) w1 d Hday1 Hyear)
    as Hplus.
  destruct (use_quota daily_limit (remote_addr req) w1) as [[success message] w2].
  cbn [fst snd] in Hcase, Hplus. destruct success; [|done]. cbn [negb].
  destruct Hcase as [Hlt _]. specialize (Hplus eq_refl).
  destruct (Py.get data "settings" (JDict [])) as [user_settings|e]; [|done].
  intros _. exists data, file_url, episode_url, user_settings.
  cbn [fst snd ledger registry started]. rewrite Hplus, Hused1 in *.
  repeat split; try done. lia.
Qed.

End ServerFacts.

#[local] Arguments String.append !_ _ / : simpl nomatch.
#[local] Arguments Text.chr : simpl never.

Section TextFacts.
Import Text.

Lemma append_assoc (a b c : string) : (a ++ b) ++ c = a ++ b ++ c.
Proof. induction a as [|x a IH]; [done|]. cbn. by rewrite IH. Qed.

Lemma append_nil_r (a : string) : a ++ "" = a.
Proof. induction a as [|x a IH]; [done|]. cbn. by rewrite IH. Qed.

Lemma append_cons c (a b : string) : String c a ++ b = String c (a ++ b).
Proof. reflexivity. Qed.

Lemma prefix_split p s :
  String.prefix p s = true → s = p ++ drop (String.length p) s.
Proof.
  revert s. induction p as [|x p IH]; intros [|y s] H; cbn in *; try done.
  destruct (ascii_dec x y) as [->|]; [|done]. f_equal. by apply IH.
Qed.




Lemma is_char_chr n c : (n < 256)%N → is_char n c = true → c = chr n.
Proof.
  unfold is_char, chr. intros Hn H. apply N.eqb_eq in H. subst n.
  by rewrite ascii_N_embedding.
Qed.




Lemma is_char_self n : (n < 256)%N → is_char n (chr n) = true.
Proof.
  intros Hn. unfold is_char, chr. rewrite N_ascii_embedding by done.
  apply N.eqb_refl.
Qed.







Lemma prefix_append p s : String.prefix p (p ++ s) = true.
Proof.
  induction p as [|c p IH]; [by destruct s|].
  cbn. by destruct (ascii_dec c c).
Qed.

Lemma contains_spec sub s :
  contains sub s = true ↔ ∃ pre post, s = pre ++ sub ++ post.
Proof.
  split.
  - induction s as [|c s IH]; cbn [contains]; intros H.
    + rewrite orb_false_r in H. exists "". eexists. by apply prefix_split.
    + apply orb_prop in H as [H|H].
      * exists "". eexists. by apply prefix_split.
      * destruct (IH H) as (pre & post & ->). by exists (String c pre), post.
  - intros (pre & post & ->). induction pre as [|c pre IH].
    + cbn [String.append]. destruct (sub ++ post) eqn:E; cbn [contains];
        rewrite <- E, prefix_append; done.
    + cbn [String.append contains]. rewrite IH. apply orb_true_r.
Qed.

Lemma contains_trans a b s :
  contains a b = true → contains b s = true → contains a s = true.
Proof.
  intros (p1 & q1 & ->)%contains_spec (p2 & q2 & ->)%contains_spec.
  apply contains_spec. exists (p2 ++ p1), (q1 ++ q2).
  by rewrite !append_assoc.
Qed.
End TextFacts.

Section GenerationFacts.
Import BlogGenerator.
Variable E : env.




Lemma slept_app st es :
  slept (mkstate (calls st) (draws st) (events st ++ es))
  = (slept st ++ omap (λ e, match e with Slept w => Some w | _ => None end) es)%list.
Proof. unfold slept. cbn. apply omap_app. Qed.








End GenerationFacts.

Section GenerationClaims.
Import BlogGenerator.
Variable E : env.

Lemma ensure_short article content st :
  Py.get article "content" (JString "") = Ok (JString content) →
  (Z.of_nat (String.length (Text.strip_tags content)) < min_characters E)%Z →
  _ensure_minimum_length E article st
  = (Raise (NameError "episode_url"),
     emit InfoExpanding
       (emit (InfoFirstPass (String.length (Text.strip_tags content))) st)).
Proof.
  intros Hc Hlt. unfold _ensure_minimum_length. rewrite Hc. cbn.
  by apply Z.ltb_lt in Hlt as ->.
Qed.



(** C1. What the code does with an article whose content, without markup,
  is shorter than the minimum: [generate_article] raises [NameError] for
  [episode_url], calls the backend no more after the first generation (no
  expansion pass is issued), and logs the failure. The claim asks for one
  expansion pass and for the first article when that pass fails. *)
Theorem short_article_is_not_expanded transcript episode_url st article content :
  let first := _generate_with_claude E
                 (build_prompt E transcript (reference_style E) episode_url) st in
  let r := (generate_article E transcript episode_url st).1 in
  let st' := (generate_article E transcript episode_url st).2 in
  first.1 = Ok article →
  Py.get article "content" (JString "") = Ok (JString content) →
  (Z.of_nat (String.length (Text.strip_tags content)) < min_characters E)%Z →
  r = Raise (NameError "episode_url")
  ∧ calls st' = calls first.2
  ∧ events st'
    = (events first.2
       ++ [InfoFirstPass (String.length (Text.strip_tags content));
           InfoExpanding; ErrConvert (NameError "episode_url")])%list.
Proof.
  cbn zeta. intros H1 Hc Hlt. unfold generate_article.
  destruct (_generate_with_claude E _ st) as [r1 st1]. cbn in H1. subst r1.
  rewrite (ensure_short _ _ _ Hc Hlt). cbn.
  by rewrite <- !app_assoc.
Qed.

(** The path that was meant to run keeps the first article when the
    expansion fails. *)
Lemma expand_article_keeps_original article min_chars episode_url st :
  (∃ v, (_expand_article E article min_chars episode_url st).1 = Ok v)
  ∧ (∀ e, (_generate_with_claude E
             (expand_prompt E article min_chars episode_url) st).1 = Raise e →
          (_expand_article E article min_chars episode_url st).1 = Ok article).
Proof.
  unfold _expand_article.
  destruct (_generate_with_claude E _ st) as [[v|e] st1]; cbn.
  - split; [|done].
    destruct (Py.get v "content" (JString "")) as [c|?]; cbn; eauto.
    destruct (Py.sub_tags c); cbn; eauto.
  - split; eauto.
Qed.



End GenerationClaims.

Section GenerationExamples.
Import BlogGenerator Samples.

(** C1: a short article, and a backend that would answer an expansion. *)
Lemma short_article_example :
  let E := client 4000 [says article_text; says article_text] in
  let first := _generate_with_claude E "transcript" initial in
  (first.1 = Ok article_value
   ∧ Py.get article_value "content" (JString "") = Ok (JString "<p>short</p>")
   ∧ (Z.of_nat (String.length (Text.strip_tags "<p>short</p>")) < min_characters E)%Z)
  ∧ (generate_article E "transcript" "" initial).1 = Raise (NameError "episode_url")
  ∧ calls (generate_article E "transcript" "" initial).2 = calls first.2
  ∧ events (generate_article E "transcript" "" initial).2
    = (events first.2
       ++ [InfoFirstPass (String.length (Text.strip_tags "<p>short</p>"));
           InfoExpanding; ErrConvert (NameError "episode_url")])%list.
Proof.
  cbn zeta.
  assert (H1 : (_generate_with_claude
                  (client 4000 [says article_text; says article_text])
                  "transcript" initial).1 = Ok article_value)
    by (vm_compute; reflexivity).
  assert (H2 : Py.get article_value "content" (JString "")
               = Ok (JString "<p>short</p>")) by reflexivity.
  assert (H3 : (Z.of_nat (String.length (Text.strip_tags "<p>short</p>"))
                < min_characters
                    (client 4000 [says article_text; says article_text]))%Z)
    by (vm_compute; reflexivity).
  split; [done|].
  exact (short_article_is_not_expanded
           (client 4000 [says article_text; says article_text])
           "transcript" "" initial article_value "<p>short</p>" H1 H2 H3).
Defined.

Lemma short_article_calls_once :
  let E := client 4000 [says article_text; says article_text] in
  (generate_article E "transcript" "" initial).1 = Raise (NameError "episode_url")
  ∧ calls (generate_article E "transcript" "" initial).2 = 1.
Proof. vm_compute. done. Qed.




End GenerationExamples.

Section PublishingFacts.
Import WordPressPoster.
Variable self : poster.

(** What [send] does, by the answer it gets. *)
Lemma send_eq r w :
  send r w
  = (match answer w (sent w) r with
     | inl msg => Raise (ApiError msg)
     | inr resp => if bad (inr resp) then Raise (ApiError "HTTPError") else Ok resp
     end,
     mkworld (answer w) (S (sent w)) (events w ++ [Sent r])).
Proof. unfold send, bad. destruct (answer w (sent w) r); [done|]. by destruct (_ && _). Qed.

Lemma requests_app w es :
  requests (mkworld (answer w) (sent w) (events w ++ es))
  = (requests w ++ omap (λ e, match e with Sent r => Some r | _ => None end) es)%list.
Proof. unfold requests. cbn. apply omap_app. Qed.

Lemma login_never_raises w : ∃ b, (_login self w).1 = Ok b.
Proof.
  unfold _login. destruct (_login_body self w) as [[b|e] w']; cbn; eauto.
Qed.

Lemma post_article_never_raises' article w : ∃ b, (_post_article self article w).1 = Ok b.
Proof.
  unfold _post_article.
  destruct (_post_article_body self article w) as [[b|e] w']; cbn; eauto.
Qed.

Ltac step :=
  match goal with
  | |- context [match answer ?w ?n ?r with _ => _ end] =>
      destruct (answer w n r) as [?|?] eqn:?
  | |- context [if bad ?a then _ else _] => destruct (bad a) eqn:?
  | |- context [match loginform ?p with _ => _ end] =>
      destruct (loginform p) as [?|] eqn:?
  | |- context [match filter ?P ?l with _ => _ end] =>
      destruct (filter P l) as [|? ?] eqn:?
  | |- context [match Py.item ?a ?k with _ => _ end] =>
      destruct (Py.item a k) as [?|?] eqn:?
  | |- context [match Py.get ?a ?k ?d with _ => _ end] =>
      destruct (Py.get a k d) as [?|?] eqn:?
  | |- context [match Py.slice ?a ?k with _ => _ end] =>
      destruct (Py.slice a k) as [?|?] eqn:?
  | |- context [match error_divs ?p with _ => _ end] =>
      destruct (error_divs p) as [|? ?] eqn:?
  | |- context [if ?b then _ else _] => destruct b eqn:?
  end.

Lemma exchanges_app w a n es :
  exchanges w (mkworld a n (events w ++ es))
  = imap (λ i r, (r, answer w (sent w + i) r))
         (omap (λ e, match e with Sent r => Some r | _ => None end) es).
Proof.
  unfold exchanges, requests. cbn [events]. by rewrite omap_app, drop_app_length.
Qed.

Lemma invalid_settings :
  site_url self = "" ∨ username self = "" ∨ password self = "" →
  _validate_settings self = false.
Proof.
  unfold _validate_settings. intros [-> | [-> | ->]]; cbn;
    by rewrite ?andb_false_r.
Qed.

Ltac unfold_run :=
  unfold post_article, _post_via_browser_automation, _login, _login_body,
    _post_article, _post_article_body;
  rewrite ?send_eq; unfold log, emit; cbn [fst snd events sent answer].

Ltac steps :=
  repeat (step; cbn [fst snd events sent answer]; rewrite ?send_eq;
          cbn [fst snd events sent answer]).

Lemma invalid_run article w :
  site_url self = "" ∨ username self = "" ∨ password self = "" →
  (post_article self article w).1 = Ok false
  ∧ sent (post_article self article w).2 = sent w
  ∧ requests (post_article self article w).2 = requests w.
Proof.
  intros Hinv%invalid_settings. unfold post_article. rewrite Hinv. cbn.
  split; [done|]. split; [done|]. unfold requests, log, emit. cbn.
  by rewrite omap_app, app_nil_r.
Qed.

Ltac indices :=
  rewrite ?Nat.add_0_r;
  repeat match goal with
    | |- context [?n + 1] => replace (n + 1) with (S n) by lia
    | |- context [?n + 2] => replace (n + 2) with (S (S n)) by lia
    | |- context [?n + 3] => replace (n + 3) with (S (S (S n))) by lia
    end.

Ltac answers :=
  repeat match goal with
    | H : answer _ _ _ = _ |- _ => rewrite H; clear H
    end.

(** Every run ends in [false], or in [true] after four exchanges that
    all went well. *)
Lemma run_cases article w :
  let r := (post_article self article w).1 in
  let w' := (post_article self article w).2 in
  r = Ok false
  ∨ (r = Ok true ∧
     ∃ page1 login_resp page3 post_resp data1 data2,
       exchanges w w'
       = [(GET (login_url self), inr page1);
          (POST (login_url self) data1, inr login_resp);
          (GET (site_url self ++ "/wp-admin/post-new.php"), inr page3);
          (POST (site_url self ++ "/wp-admin/post.php") data2, inr post_resp)]
       ∧ Forall (λ x, bad x.2 = false) (exchanges w w')
       ∧ login_ok login_resp = true ∧ published post_resp = true).
Proof.
  cbn zeta. unfold_run. steps.
  all: try (by left).
  all: right; split; [done|].
  all: rewrite <- ?app_assoc; cbn [app]; rewrite exchanges_app; cbn.
  all: indices; answers.
  all: eexists _, _, _, _, _, _; split; [reflexivity|].
  all: split; [repeat constructor; assumption|].
  all: split; [assumption|].
  all: unfold published;
    repeat match goal with H : _ = _ |- _ => rewrite H end; done.
Qed.

(** C7. [post_article] always returns a boolean and never raises; with an
  empty site address, user name or password it returns [False] without
  sending a request; a request answered by an exception or an error
  status makes it return [False]; it returns [True] only after the four
  exchanges of a login and a submission that were both classified as
  successful. *)
Theorem publish_returns_a_boolean article w :
  let r := (post_article self article w).1 in
  let w' := (post_article self article w).2 in
  (∃ b, r = Ok b)
  ∧ (site_url self = "" ∨ username self = "" ∨ password self = "" →
     r = Ok false ∧ sent w' = sent w ∧ requests w' = requests w)
  ∧ (∀ req a, (req, a) ∈ exchanges w w' → bad a = true → r = Ok false)
  ∧ (r = Ok true →
     ∃ page1 login_resp page3 post_resp data1 data2,
       exchanges w w'
       = [(GET (login_url self), inr page1);
          (POST (login_url self) data1, inr login_resp);
          (GET (site_url self ++ "/wp-admin/post-new.php"), inr page3);
          (POST (site_url self ++ "/wp-admin/post.php") data2, inr post_resp)]
       ∧ login_ok login_resp = true ∧ published post_resp = true).
Proof.
  cbn zeta. split; [|split; [|split]].
  - destruct (run_cases article w) as [Hr|[Hr _]]; rewrite Hr; eauto.
  - by apply invalid_run.
  - intros req a Hin Hbad. destruct (run_cases article w) as [Hr|H];
      [done|].
    destruct H as (Hr & p1 & lr & p3 & pr & d1 & d2 & Hex & Hgood & _).
    rewrite Forall_forall in Hgood.
    exfalso. specialize (Hgood _ Hin). cbn in Hgood. congruence.
  - intros Hr. destruct (run_cases article w) as [Hr'|H]; [congruence|].
    destruct H as (_ & p1 & lr & p3 & pr & d1 & d2 & Hex & _ & Hl & Hp).
    by exists p1, lr, p3, pr, d1, d2.
Qed.

Lemma login_page_is_not_admin u :
  Text.contains "wp-login.php" u = true →
  Text.contains "wp-admin" u && negb (Text.contains "login" u) = false.
Proof.
  intros H. rewrite (contains_trans "login" "wp-login.php" u); [|done|done].
  apply andb_false_r.
Qed.

(** C8. With valid settings: when the login response's final URL is
  still the login page, [post_article] returns [False] and the only
  requests sent are the two of the login; when the login succeeds and the
  first form of the editor page lacks one of the required hidden fields,
  it returns [False] after fetching the editor page once, without sending
  anything more. *)
Theorem failed_login_or_editor_stops_publishing article w :
  let r := (post_article self article w).1 in
  let w' := (post_article self article w).2 in
  _validate_settings self = true →
  (∀ page1 inputs login_resp,
     answer w (sent w) (GET (login_url self)) = inr page1 →
     bad (inr page1) = false →
     loginform (soup page1) = Some inputs →
     answer w (S (sent w))
       (POST (login_url self) (login_data self (harvest inputs ∅)))
     = inr login_resp →
     bad (inr login_resp) = false →
     Text.contains "wp-login.php" (url login_resp) = true →
     r = Ok false
     ∧ requests w'
       = (requests w
          ++ [GET (login_url self);
              POST (login_url self) (login_data self (harvest inputs ∅))])%list)
  ∧ (∀ page1 inputs login_resp editor field,
       answer w (sent w) (GET (login_url self)) = inr page1 →
       bad (inr page1) = false →
       loginform (soup page1) = Some inputs →
       answer w (S (sent w))
         (POST (login_url self) (login_data self (harvest inputs ∅)))
       = inr login_resp →
       bad (inr login_resp) = false →
       login_ok login_resp = true →
       answer w (S (S (sent w)))
         (GET (site_url self ++ "/wp-admin/post-new.php"))
       = inr editor →
       bad (inr editor) = false →
       field ∈ required_fields →
       editor_fields editor !! field = None →
       r = Ok false
       ∧ requests w'
         = (requests w
            ++ [GET (login_url self);
                POST (login_url self) (login_data self (harvest inputs ∅));
                GET (site_url self ++ "/wp-admin/post-new.php")])%list).
Proof.
  cbn zeta. intros Hvalid. split.
  - intros page1 inputs login_resp A1 B1 Hform A2 B2 Hurl.
    unfold_run. rewrite Hvalid. cbn [negb fst snd events sent answer].
    rewrite ?send_eq. cbn [fst snd events sent answer].
    rewrite A1, B1. cbn [fst snd events sent answer]. rewrite Hform.
    rewrite ?send_eq. cbn [fst snd events sent answer].
    rewrite A2, B2. cbn [fst snd events sent answer].
    rewrite (login_page_is_not_admin _ Hurl). cbn [fst snd events sent answer].
    split; [done|]. unfold requests. cbn [events].
    rewrite <- ?app_assoc. by rewrite omap_app.
  - intros page1 inputs login_resp editor field A1 B1 Hform A2 B2 Hok A3 B3 Hin Hmiss.
    unfold login_ok in Hok. unfold editor_fields in Hmiss.
    unfold_run. rewrite Hvalid. cbn [negb fst snd events sent answer].
    rewrite ?send_eq. cbn [fst snd events sent answer].
    rewrite A1, B1. cbn [fst snd events sent answer]. rewrite Hform.
    rewrite ?send_eq. cbn [fst snd events sent answer].
    rewrite A2, B2. cbn [fst snd events sent answer].
    rewrite Hok. cbn [fst snd events sent answer].
    rewrite ?send_eq. cbn [fst snd events sent answer].
    rewrite A3, B3. cbn [fst snd events sent answer].
    destruct (filter _ required_fields) as [|f fs] eqn:Hf.
    + exfalso. assert (Hin' : field ∈ filter
          (λ field, match forms (soup editor) with
                    | [] => ∅
                    | main_form :: _ => harvest main_form ∅
                    end !! field = None) required_fields)
        by (by apply list_elem_of_filter).
      rewrite Hf in Hin'. by apply elem_of_nil in Hin'.
    + cbn [fst snd events sent answer].
      split; [done|]. unfold requests. cbn [events].
      rewrite <- ?app_assoc. by rewrite omap_app.
Qed.
End PublishingFacts.

Section JobFacts.
Import App.
Variable C : collaborators.
Variable task_id : string.

Lemma update_status_keeps step total name msg err st :
  let st' := update_status C task_id step total name msg err st in
  entered st' = entered st
  ∧ stored_result task_id (processing_status st')
    = stored_result task_id (processing_status st)
  ∧ is_Some (processing_status st' !! task_id).
Proof.
  cbn zeta. unfold update_status, stored_result. cbn.
  split; [done|]. rewrite !lookup_alter_eq.
  destruct (processing_status st !! task_id) as [t|] eqn:Ht; cbn.
  - rewrite Ht. cbn. eauto.
  - rewrite lookup_insert_eq. cbn. eauto.
Qed.

Lemma update_entered step total name msg err st :
  entered (update_status C task_id step total name msg err st) = entered st.
Proof. apply update_status_keeps. Qed.

Lemma update_task step total name msg err st :
  is_Some (processing_status
             (update_status C task_id step total name msg err st) !! task_id).
Proof. apply update_status_keeps. Qed.


Lemma store_result_stores article st :
  is_Some (processing_status st !! task_id) →
  ∃ st', store_result task_id article st = Ok st'
         ∧ entered st' = entered st
         ∧ stored_result task_id (processing_status st') = Some article.
Proof.
  intros [t Ht]. unfold store_result. rewrite Ht. eexists. split; [done|].
  split; [done|]. unfold stored_result. cbn. by rewrite lookup_alter_eq, Ht.
Qed.

Lemma publish_step_keeps merged article st :
  stored_result task_id (processing_status st) = Some article →
  let st' := (publish_step C task_id merged article st).2 in
  stored_result task_id (processing_status st') = Some article
  ∧ ∃ new, entered st' = (entered st ++ new)%list
           ∧ ∀ s reg, (s, reg) ∈ new →
               s = Publish ∧ stored_result task_id reg = Some article.
Proof.
  intros Hres. cbn zeta. unfold publish_step.
  assert (Hnone : ∃ new, entered st = (entered st ++ new)%list
                  ∧ ∀ s reg, (s, reg) ∈ new →
                      s = Publish ∧ stored_result task_id reg = Some article).
  { exists []. split; [by rewrite app_nil_r|]. intros s reg H.
    by apply elem_of_nil in H. }
  destruct (Py.get merged "wordpress" (JDict [])) as [wp|]; [|done].
  destruct (Py.get wp "site_url" JNull) as [site|]; [|done].
  destruct (Py.get wp "username" JNull) as [user|]; [|done].
  destruct (Py.get wp "password" JNull) as [pass|]; [|done].
  destruct (Py.get wp "site_url" (JString "None")) as [shown|]; [|done].
  destruct (Py.slice shown 20); [|done].
  destruct (Py.truth site && Py.truth user && Py.truth pass).
  - assert (Hent : ∃ new, entered (enter Publish st) = (entered st ++ new)%list
                   ∧ ∀ s reg, (s, reg) ∈ new →
                       s = Publish ∧ stored_result task_id reg = Some article).
    { exists [(Publish, processing_status st)]. split; [done|].
      intros s reg H. apply list_elem_of_singleton in H. by injection H as -> ->. }
    destruct (post_article C wp article) as [[|]|e]; cbn [fst snd];
      match goal with
      | |- context [update_status C task_id ?a ?b ?c ?d ?e ?s] =>
          destruct (update_status_keeps a b c d e s) as (-> & -> & _)
      end; done.
  - cbn [fst snd].
    match goal with
    | |- context [update_status C task_id ?a ?b ?c ?d ?e ?s] =>
        destruct (update_status_keeps a b c d e s) as (-> & -> & _)
    end; done.
Qed.

Ltac keep :=
  repeat match goal with
    | |- context [update_status C task_id ?a ?b ?c ?d ?e ?s] =>
        let H1 := fresh "He" in let H2 := fresh "Hr" in let H3 := fresh "Ht" in
        destruct (update_status_keeps a b c d e s) as (H1 & H2 & H3);
        generalize dependent (update_status C task_id a b c d e s); intros
    end.

End JobFacts.

Section LedgerExamples.
Import Calendar UsageLimiter Samples.

Lemma evening_on_day f : on_day (ledger f) (jst_ordinal evening).
Proof. intros n. reflexivity. Qed.

Lemma evening_year : (year (fromordinal (jst_ordinal evening)) <= 9999)%N.
Proof. vm_compute. discriminate. Qed.



End LedgerExamples.

Section GenerationWitness.
Import BlogGenerator Samples.

End GenerationWitness.

Section PublishingExamples.
Import WordPressPoster Samples.

Lemma incomplete_settings_example :
  let w := net [inr login_page] in
  (site_url blog_without_password = "" ∨ username blog_without_password = ""
   ∨ password blog_without_password = "")
  ∧ (post_article blog_without_password article_value w).1 = Ok false
  ∧ sent (post_article blog_without_password article_value w).2 = sent w
  ∧ requests (post_article blog_without_password article_value w).2 = requests w.
Proof.
  cbn zeta.
  assert (H : site_url blog_without_password = ""
              ∨ username blog_without_password = ""
              ∨ password blog_without_password = "")
    by (right; right; reflexivity).
  split; [exact H|].
  exact (proj1 (proj2 (publish_returns_a_boolean blog_without_password
                         article_value (net [inr login_page]))) H).
Defined.

Lemma stopped_publishing_example :
  let w1 := net [inr login_page; inr login_again] in
  let w2 := net [inr login_page; inr dashboard; inr editor_without_nonce] in
  let data := login_data blog (harvest login_inputs ∅) in
  _validate_settings blog = true
  ∧ ((post_article blog article_value w1).1 = Ok false
     ∧ requests (post_article blog article_value w1).2
       = (requests w1 ++ [GET (login_url blog); POST (login_url blog) data])%list)
  ∧ ((post_article blog article_value w2).1 = Ok false
     ∧ requests (post_article blog article_value w2).2
       = (requests w2
          ++ [GET (login_url blog); POST (login_url blog) data;
              GET (site_url blog ++ "/wp-admin/post-new.php")])%list).
Proof.
  cbn zeta.
  assert (Hv : _validate_settings blog = true) by (vm_compute; reflexivity).
  split; [exact Hv|]. split.
  - refine (proj1 (failed_login_or_editor_stops_publishing blog article_value
                     (net [inr login_page; inr login_again]) Hv)
              login_page login_inputs login_again _ _ _ _ _ _);
      vm_compute; reflexivity.
  - refine (proj2 (failed_login_or_editor_stops_publishing blog article_value
                     (net [inr login_page; inr dashboard; inr editor_without_nonce])
                     Hv)
              login_page login_inputs dashboard editor_without_nonce "_wpnonce"
              _ _ _ _ _ _ _ _ _ _);
      try (vm_compute; reflexivity).
    apply list_elem_of_here.
Defined.
End PublishingExamples.

Section JobExamples.
Import App Samples.

End JobExamples.

Section TextMore.
Import Text.

Lemma strip_tags_from_length inside s :
  String.length (strip_tags_from inside s) <= String.length s.
Proof.
  revert inside. induction s as [|c s IH]; intros inside; [done|].
  cbn [strip_tags_from].
  destruct inside.
  - destruct (is_char gt_sign c); cbn; [specialize (IH false)|specialize (IH true)]; lia.
  - destruct (is_char lt_sign c && _); cbn;
      [specialize (IH true)|specialize (IH false)]; lia.
Qed.

(** X8. Removing the tags, as _ensure_minimum_length does before counting
    characters, never lengthens the text, and leaves a text without any <
    unchanged. *)
Theorem strip_tags_shortens s :
  String.length (strip_tags s) <= String.length s
  ∧ (has_char lt_sign s = false → strip_tags s = s).
Proof.
  split; [apply strip_tags_from_length|].
  unfold strip_tags. induction s as [|c s IH]; [done|].
  cbn [has_char strip_tags_from]. intros [Hc Hs]%orb_false_elim.
  rewrite Hc. cbn. by rewrite IH.
Qed.

Lemma lower_app a b : lower (a ++ b) = lower a ++ lower b.
Proof. induction a as [|c a IH]; [done|]. cbn. by rewrite IH. Qed.

End TextMore.



Section PromptFacts.
Import Text Prompt.

Lemma last_segment_spec s :
  has_char slash (last_segment s) = false
  ∧ ∃ pre, s = pre ++ last_segment s
           ∧ (has_char slash s = true → ends_with (String (chr slash) "") pre = true)
           ∧ (has_char slash s = false → pre = "").
Proof.
  induction s as [|c s (IH1 & pre & IH2 & IH3 & IH4)]; [by split; [|exists ""]|].
  cbn [last_segment has_char].
  destruct (has_char slash s) eqn:Hs.
  - split; [done|]. exists (String c pre). split; [by rewrite IH2 at 1|].
    split; [|by rewrite orb_true_r].
    intros _. cbn [ends_with]. rewrite (IH3 eq_refl). apply orb_true_r.
  - destruct (is_char slash c) eqn:Hc.
    + split; [done|]. exists (String c ""). split; [done|]. split; [|done].
      intros _. apply is_char_chr in Hc as ->; done.
    + split; [cbn; by rewrite Hc, Hs|]. exists "". by split.
Qed.

(** X9. The episode id put into the embed snippet holds no slash and is a suffix
    of the episode URL: what comes before it ends in a slash when the URL holds
    one, and is empty otherwise. *)
Theorem episode_id_is_last_segment url :
  has_char slash (episode_id url) = false
  ∧ ∃ pre, url = pre ++ episode_id url
           ∧ (has_char slash url = true → ends_with (String (chr slash) "") pre = true)
           ∧ (has_char slash url = false → pre = "").
Proof.
  unfold episode_id. pose proof (last_segment_spec url) as L.
  destruct (has_char slash url) eqn:H; [exact L|].
  split; [done|]. exists "". by split.
Qed.
End PromptFacts.

Section GenerationMore.
Import BlogGenerator.
Variable E : env.

(** X10. The retry test of _generate_with_claude finds the word overloaded in an
    error message in any mixture of upper and lower case, anywhere in the
    message. *)
Theorem overloaded_ignores_case pre word post :
  Text.lower word = "overloaded" → overloaded (pre ++ word ++ post) = true.
Proof.
  intros H. unfold overloaded. rewrite !lower_app, H.
  apply contains_spec. by exists (Text.lower pre), (Text.lower post).
Qed.




End GenerationMore.

Section PublishingMore.
Import WordPressPoster.
Variable self : poster.

(** X14. In the login form data the hidden fields of the login page win: every
    hidden field is sent with its own value, also under the names log, pwd and
    redirect_to, and the configured user name, password and redirect are sent
    only where the page has no hidden field of that name. *)
Theorem form_fields_override_credentials hidden :
  (∀ k v, hidden !! k = Some v → login_data self hidden !! k = Some (JString v))
  ∧ (hidden !! "log" = None →
     login_data self hidden !! "log" = Some (JString (username self)))
  ∧ (hidden !! "pwd" = None →
     login_data self hidden !! "pwd" = Some (JString (password self)))
  ∧ (hidden !! "redirect_to" = None →
     login_data self hidden !! "redirect_to"
     = Some (JString (site_url self ++ "/wp-admin/")))
  ∧ (∀ k, hidden !! k = None →
       k ∉ ["log"; "pwd"; "wp-submit"; "redirect_to"; "testcookie"] →
       login_data self hidden !! k = None).
Proof.
  unfold login_data. repeat split.
  - intros k v H. apply lookup_union_Some_l. by rewrite lookup_fmap, H.
  - intros H. rewrite lookup_union_r by (by rewrite lookup_fmap, H).
    by simplify_map_eq.
  - intros H. rewrite lookup_union_r by (by rewrite lookup_fmap, H).
    by simplify_map_eq.
  - intros H. rewrite lookup_union_r by (by rewrite lookup_fmap, H).
    by simplify_map_eq.
  - intros k H Hk. rewrite lookup_union_r by (by rewrite lookup_fmap, H).
    repeat (rewrite lookup_insert_ne; [|intros <-; apply Hk; set_solver]).
    apply lookup_singleton_ne. intros <-. apply Hk. set_solver.
Qed.

Lemma harvest_sound inputs fields name value :
  harvest inputs fields !! name = Some value →
  fields !! name = Some value
  ∨ ((Some name, Some value) ∈ inputs ∧ name ≠ "" ∧ value ≠ "").
Proof.
  revert fields. induction inputs as [|[[n|] [v|]] rest IH]; intros fields H;
    cbn [harvest] in H; [by left|..].
  - destruct (String.eqb_spec n ""); cbn [negb andb] in H.
    + destruct (IH _ H) as [?|(? & ? & ?)]; [by left|right; set_solver].
    + destruct (String.eqb_spec v ""); cbn [negb andb] in H.
      * destruct (IH _ H) as [?|(? & ? & ?)]; [by left|right; set_solver].
      * destruct (IH _ H) as [Hf|(? & ? & ?)]; [|right; set_solver].
        destruct (decide (n = name)) as [->|Hne].
        -- rewrite lookup_insert_eq in Hf. injection Hf as ->. right. set_solver.
        -- rewrite lookup_insert_ne in Hf by done. by left.
  - destruct (IH _ H) as [?|(? & ? & ?)]; [by left|right; set_solver].
  - destruct (IH _ H) as [?|(? & ? & ?)]; [by left|right; set_solver].
  - destruct (IH _ H) as [?|(? & ? & ?)]; [by left|right; set_solver].
Qed.

Lemma harvest_app inputs more fields :
  harvest (inputs ++ more) fields = harvest more (harvest inputs fields).
Proof.
  revert fields. induction inputs as [|[[n|] [v|]] rest IH]; intros fields;
    cbn [harvest app]; try done.
  by destruct (negb (String.eqb n "") && negb (String.eqb v "")).
Qed.

(** X15. The hidden fields collected from a form are exactly inputs with a
    non-empty name and a non-empty value, and for a name given several times the
    last non-empty value is the one kept. *)
Theorem harvest_collects_filled_inputs inputs :
  (∀ name value, harvest inputs ∅ !! name = Some value →
     (Some name, Some value) ∈ inputs ∧ name ≠ "" ∧ value ≠ "")
  ∧ (∀ before name value after,
       inputs = (before ++ (Some name, Some value) :: after)%list →
       name ≠ "" → value ≠ "" →
       (∀ v, (Some name, Some v) ∈ after → v = "") →
       harvest inputs ∅ !! name = Some value).
Proof.
  split.
  - intros name value H. destruct (harvest_sound _ _ _ _ H) as [H0|]; [|done].
    by rewrite lookup_empty in H0.
  - intros before name value after -> Hn Hv Hlast.
    rewrite harvest_app. cbn [harvest].
    apply String.eqb_neq in Hn as Hn'. apply String.eqb_neq in Hv as Hv'.
    rewrite Hn', Hv'. cbn [negb andb].
    generalize (harvest before ∅). intros fields.
    assert (Hkeep : ∀ f, f !! name = Some value →
                         harvest after f !! name = Some value).
    { clear fields. induction after as [|[[n|] [v|]] rest IH]; intros f Hf;
        cbn [harvest]; try done; try (apply IH; [set_solver|done]).
      destruct (String.eqb_spec n ""); cbn [negb andb];
        [apply IH; [set_solver|done]|].
      destruct (String.eqb_spec v ""); cbn [negb andb];
        [apply IH; [set_solver|done]|].
      apply IH; [set_solver|].
      destruct (decide (n = name)) as [->|Hne].
      - exfalso. assert (v = "") by (apply Hlast; set_solver). done.
      - by rewrite lookup_insert_ne. }
    apply Hkeep. apply lookup_insert_eq.
Qed.

Lemma rstrip_slash_spec s :
  Text.ends_with (String (Text.chr Text.slash) "") (Text.rstrip_slash s) = false
  ∧ ∃ k, s = Text.rstrip_slash s
             ++ string_of_list_ascii (repeat (Text.chr Text.slash) k).
Proof.
  induction s as [|c s (IH1 & k & IH2)]; [split; [done|by exists 0]|].
  cbn [Text.rstrip_slash].
  destruct (Text.is_char Text.slash c && String.eqb (Text.rstrip_slash s) "")
    eqn:Hc.
  - apply andb_prop in Hc as [Hc He]. apply String.eqb_eq in He.
    split; [done|]. exists (S k). apply is_char_chr in Hc as ->; [|done].
    rewrite He in IH2. cbn in IH2. cbn. by rewrite <- IH2.
  - split.
    + cbn [Text.ends_with]. rewrite IH1, orb_false_r.
      apply andb_false_iff in Hc as [Hc|Hc].
      * destruct (Text.rstrip_slash s) eqn:Hr; cbn.
        -- destruct (Ascii.eqb_spec (Text.chr Text.slash) c) as [<-|]; [|done].
           by rewrite is_char_self in Hc.
        -- destruct (Ascii.eqb (Text.chr Text.slash) c); [|done]. done.
      * destruct (Text.rstrip_slash s) eqn:Hr; [done|]. cbn.
        by destruct (Ascii.eqb (Text.chr Text.slash) c).
    + exists k. cbn. by rewrite <- IH2.
Qed.

(** X16. The constructor strips every trailing slash from the site URL, then
    removes every occurrence of /wp-admin when the stripped URL ends with it,
    and keeps the user name and the password as given. *)
Theorem init_strips_trailing_slashes url user pass cat st tmo :
  let stripped := Text.rstrip_slash url in
  (∃ k, url = stripped ++ string_of_list_ascii (repeat (Text.chr Text.slash) k))
  ∧ Text.ends_with (String (Text.chr Text.slash) "") stripped = false
  ∧ (Text.ends_with "/wp-admin" stripped = false →
     site_url (init url user pass cat st tmo) = stripped)
  ∧ (Text.ends_with "/wp-admin" stripped = true →
     site_url (init url user pass cat st tmo) = Text.remove_all "/wp-admin" stripped)
  ∧ username (init url user pass cat st tmo) = user
  ∧ password (init url user pass cat st tmo) = pass.
Proof.
  cbn zeta. destruct (rstrip_slash_spec url) as [H1 H2].
  split; [done|]. split; [done|]. unfold init. cbn.
  split; [by intros ->|]. split; [by intros ->|]. done.
Qed.
End PublishingMore.

Section PublishingPaths.
Import WordPressPoster.
Variable self : poster.

Ltac run :=
  unfold post_article, _post_via_browser_automation, _login, _login_body,
    _post_article, _post_article_body;
  rewrite ?send_eq; unfold log, emit; cbn [negb fst snd events sent answer].

Ltac next := rewrite ?send_eq; cbn [negb fst snd events sent answer].

Ltac sent_requests :=
  unfold requests; cbn [events]; rewrite <- ?app_assoc; by rewrite omap_app.

(** X17. When the login page comes back without a login form, post_article
    returns False after that one GET: no credentials are sent. *)
Theorem no_login_form_sends_no_credentials article w page1 :
  _validate_settings self = true →
  answer w (sent w) (GET (login_url self)) = inr page1 →
  bad (inr page1) = false →
  loginform (soup page1) = None →
  (post_article self article w).1 = Ok false
  ∧ requests (post_article self article w).2
    = (requests w ++ [GET (login_url self)])%list.
Proof.
  intros Hv A1 B1 Hform. run. rewrite Hv. next. rewrite A1, B1. next.
  rewrite Hform. next. split; [done|]. sent_requests.
Qed.

(** X18. When the first request fails at the connection, post_article returns
    False instead of raising, having tried that one request only. *)
Theorem unreachable_site_is_a_failed_post article w msg :
  _validate_settings self = true →
  answer w (sent w) (GET (login_url self)) = inl msg →
  (post_article self article w).1 = Ok false
  ∧ requests (post_article self article w).2
    = (requests w ++ [GET (login_url self)])%list.
Proof.
  intros Hv A1. run. rewrite Hv. next. rewrite A1. next.
  split; [done|]. sent_requests.
Qed.

(** X19. When login succeeds and the editor form holds the required fields,
    post_article sends exactly four requests in order - login page, login,
    editor, post - and returns what the classification of the last response
    says; the posted data carry action editpost, the article's title and the
    configured status. *)
Theorem successful_run_publishes
    w page1 inputs login_resp editor post_resp title content entries :
  let article := JDict entries in
  let fields := <["originalaction" := "editpost"]>
                  (<["action" := "editpost"]> (editor_fields editor)) in
  let excerpt := default (JString "") (Py.assoc "summary" entries) in
  let data := post_data self title content excerpt fields in
  _validate_settings self = true →
  answer w (sent w) (GET (login_url self)) = inr page1 →
  bad (inr page1) = false →
  loginform (soup page1) = Some inputs →
  answer w (S (sent w))
    (POST (login_url self) (login_data self (harvest inputs ∅)))
  = inr login_resp →
  bad (inr login_resp) = false →
  login_ok login_resp = true →
  answer w (S (S (sent w))) (GET (site_url self ++ "/wp-admin/post-new.php"))
  = inr editor →
  bad (inr editor) = false →
  (∀ field, field ∈ required_fields → is_Some (editor_fields editor !! field)) →
  Py.assoc "title" entries = Some title →
  (∃ t, Py.slice title 50 = Ok t) →
  Py.assoc "content" entries = Some content →
  answer w (S (S (S (sent w))))
    (POST (site_url self ++ "/wp-admin/post.php") data) = inr post_resp →
  bad (inr post_resp) = false →
  (post_article self article w).1 = Ok (published post_resp)
  ∧ requests (post_article self article w).2
    = (requests w
       ++ [GET (login_url self);
           POST (login_url self) (login_data self (harvest inputs ∅));
           GET (site_url self ++ "/wp-admin/post-new.php");
           POST (site_url self ++ "/wp-admin/post.php") data])%list
  ∧ data !! "action" = Some (JString "editpost")
  ∧ data !! "post_title" = Some title
  ∧ data !! "post_status" = Some (JString (post_status self)).
Proof.
  cbn zeta.
  intros Hv A1 B1 Hform A2 B2 Hok A3 B3 Hreq Ht [t Hs] Hc A4 B4.
  unfold login_ok in Hok. unfold editor_fields in *.
  assert (Hfilter : filter (λ field,
            match forms (soup editor) with
            | [] => ∅
            | main_form :: _ => harvest main_form ∅
            end !! field = None) required_fields = []).
  { destruct (filter _ required_fields) as [|f fs] eqn:Hf; [done|]. exfalso.
    assert (Hin : f ∈ f :: fs) by apply list_elem_of_here.
    rewrite <- Hf in Hin. apply list_elem_of_filter in Hin as [Hnone Hin].
    destruct (Hreq f Hin) as [v Hfv]. cbn in Hnone. congruence. }
  run. rewrite Hv. next. rewrite A1, B1. next. rewrite Hform. next.
  rewrite A2, B2. next. rewrite Hok. next. rewrite A3, B3. next.
  rewrite Hfilter. cbn [Py.item Py.get]. rewrite Ht, Hc. cbn [default].
  rewrite Hs. next. rewrite A4, B4. next.
  assert (Hdata : ∀ fields,
    let data := post_data self title content
                  (default (JString "") (Py.assoc "summary" entries))
                  (<["originalaction" := "editpost"]>
                     (<["action" := "editpost"]> fields)) in
    data !! "action" = Some (JString "editpost")
    ∧ data !! "post_title" = Some title
    ∧ data !! "post_status" = Some (JString (post_status self))).
  { intros fields. cbn zeta. unfold post_data. split; [|split].
    + apply lookup_union_Some_l. rewrite lookup_fmap.
      rewrite (map_lookup_filter_Some_2 _ _ "action" "editpost"); [done| |].
      * rewrite lookup_insert_ne by done. apply lookup_insert_eq.
      * cbn. unfold important_fields. set_solver.
    + rewrite lookup_union_r.
      * by repeat first [rewrite lookup_insert_eq
                        | rewrite lookup_insert_ne by done].
      * rewrite lookup_fmap. apply fmap_None, map_lookup_filter_None. right.
        intros x _ Hin. cbn in Hin. unfold important_fields in Hin.
        repeat (apply elem_of_cons in Hin as [Hin|Hin]; [discriminate Hin|]).
        by apply elem_of_nil in Hin.
    + rewrite lookup_union_r.
      * by repeat first [rewrite lookup_insert_eq
                        | rewrite lookup_insert_ne by done].
      * rewrite lookup_fmap. apply fmap_None, map_lookup_filter_None. right.
        intros x _ Hin. cbn in Hin. unfold important_fields in Hin.
        repeat (apply elem_of_cons in Hin as [Hin|Hin]; [discriminate Hin|]).
        by apply elem_of_nil in Hin. }
  unfold published.
  destruct (Text.contains "post.php" (url post_resp)
            && (Text.contains "message=6" (url post_resp)
                || Text.contains "message=1" (url post_resp))); next;
    [|destruct (Text.contains "edit.php" (url post_resp)); next;
      [|destruct (error_divs (soup post_resp)); next]].
  all: split; [done|]; split; [sent_requests|apply Hdata].
Qed.
End PublishingPaths.

Section JobMore.
Import App Registry.
Variable C : collaborators.
Variable task_id : string.


Lemma extends_refl st : extends task_id st st.
Proof.
  split; [done|]. split; [|exists []; by rewrite app_nil_r].
  intros t Ht. exists t, []. by rewrite app_nil_r.
Qed.

Lemma extends_trans a b c :
  extends task_id a b → extends task_id b c → extends task_id a c.
Proof.
  intros (F1 & L1 & n1 & E1) (F2 & L2 & n2 & E2). split; [|split].
  - intros id Hid. by rewrite F2, F1.
  - intros t Ht. destruct (L1 t Ht) as (t1 & m1 & Ht1 & Hl1).
    destruct (L2 t1 Ht1) as (t2 & m2 & Ht2 & Hl2).
    exists t2, (m1 ++ m2)%list. split; [done|]. by rewrite Hl2, Hl1, app_assoc.
  - exists (n1 ++ n2)%list. by rewrite E2, E1, app_assoc.
Qed.

Lemma update_extends step total name msg err st :
  extends task_id st (update_status C task_id step total name msg err st).
Proof.
  unfold update_status. split; [|split]; cbn.
  - intros id Hid. rewrite !lookup_alter_ne by done.
    destruct (processing_status st !! task_id); [done|].
    by rewrite lookup_insert_ne.
  - intros t Ht. rewrite Ht. rewrite !lookup_alter_eq, Ht. cbn. eauto.
  - exists []. by rewrite app_nil_r.
Qed.

Lemma enter_extends s st : extends task_id st (enter s st).
Proof.
  split; [done|]. split; [|by eexists].
  intros t Ht. exists t, []. by rewrite app_nil_r.
Qed.

Lemma store_extends article st st' :
  store_result task_id article st = Ok st' → extends task_id st st'.
Proof.
  unfold store_result. destruct (processing_status st !! task_id) eqn:Ht; [|done].
  intros [= <-]. split; [|split]; cbn.
  - intros id Hid. by rewrite lookup_alter_ne.
  - intros t' Ht'. rewrite lookup_alter_eq, Ht. cbn.
    exists (mktask (current_step t) (total_steps t) (step_name t) (status t)
              (error t) (timestamp t) (logs t) (Some article)), [].
    split; [done|]. cbn. rewrite app_nil_r. congruence.
  - exists []. by rewrite app_nil_r.
Qed.

Ltac chain :=
  repeat first
    [ apply extends_refl
    | (eapply extends_trans; [|apply update_extends])
    | (eapply extends_trans; [|apply enter_extends]) ].

Lemma publish_step_extends merged article st :
  extends task_id st (publish_step C task_id merged article st).2.
Proof.
  unfold publish_step.
  repeat match goal with
    | |- context [match ?x with _ => _ end] =>
        match x with
        | context [match _ with _ => _ end] => fail 1
        | _ => destruct x
        end
    | |- context [if ?b then _ else _] => destruct b
    end;
    cbn [snd];
    repeat first
      [ apply extends_refl
      | (eapply extends_trans; [|apply update_extends])
      | (eapply extends_trans; [|apply enter_extends]) ].
Qed.

Lemma job_body_extends file_url episode_url st :
  extends task_id st (job_body C task_id file_url episode_url st).2.
Proof.
  unfold job_body.
  destruct (merged_settings C) as [merged|e]; [|apply extends_refl].
  destruct (download_audio C file_url) as [audio|e]; cbn [snd]; [|chain].
  destruct (Py.get merged "whisper" (JDict [])) as [whisper|e]; cbn [snd]; [|chain].
  destruct (transcribe_audio C audio whisper) as [transcript|e]; cbn [snd]; [|chain].
  destruct (generate_article C transcript episode_url) as [article|e];
    cbn [snd]; [|chain].
  destruct (Py.item article "title") as [title|e]; cbn [snd]; [|chain].
  destruct (store_result _ _ _) as [st5|e] eqn:Hstore; cbn [snd]; [|chain].
  destruct (publish_step _ _ _ _ _) as [r st6] eqn:Hpub; cbn [snd].
  eapply extends_trans; [|rewrite <- (f_equal snd Hpub : _ = st6);
                          apply publish_step_extends].
  eapply extends_trans; [|apply update_extends].
  eapply extends_trans; [|apply (store_extends _ _ _ Hstore)].
  chain.
Qed.

(** X20. A job leaves every other task of the registry as it was, only appends
    lines to the log of its own task, and only adds to the stages entered. *)
Theorem job_only_touches_its_task file_url episode_url st :
  extends task_id st (process_podcast_background C task_id file_url episode_url st).
Proof.
  unfold process_podcast_background.
  pose proof (job_body_extends file_url episode_url st) as Hbody.
  destruct (job_body C task_id file_url episode_url st) as [[r article] st1].
  cbn [snd] in Hbody. destruct r as [u|e]; [done|].
  destruct (processing_status st1 !! task_id) as [t1|] eqn:Ht1; [|done].
  eapply extends_trans; [exact Hbody|].
  split; [|split]; cbn.
  - intros id Hid. rewrite !lookup_alter_ne by done.
    destruct article; [by rewrite lookup_alter_ne|done].
  - intros t Ht. rewrite !lookup_alter_eq.
    destruct article; [rewrite lookup_alter_eq|]; rewrite Ht; cbn; eauto.
  - exists []. by rewrite app_nil_r.
Qed.

Lemma update_has_task step total name msg err st :
  has_task task_id (update_status C task_id step total name msg err st).
Proof.
  apply update_task.
Qed.

Lemma store_has_task article st st' :
  store_result task_id article st = Ok st' → has_task task_id st'.
Proof.
  unfold store_result, has_task.
  destruct (processing_status st !! task_id) eqn:Ht; [|done].
  intros [= <-]. cbn. rewrite lookup_alter_eq, Ht. by eexists.
Qed.

Lemma update_fields step total name msg err st :
  ∃ t, processing_status (update_status C task_id step total name msg err st)
         !! task_id = Some t
       ∧ current_step t = step ∧ total_steps t = total
       ∧ step_name t = name ∧ status t = msg ∧ error t = err
       ∧ result t = processing_status st !! task_id ≫= result.
Proof.
  unfold update_status. cbn. rewrite !lookup_alter_eq.
  destruct (processing_status st !! task_id) as [t|] eqn:Ht; cbn.
  - rewrite Ht. cbn. by eexists.
  - rewrite lookup_insert_eq. cbn. by eexists.
Qed.

Lemma publish_step_has_task merged article st :
  has_task task_id st →
  has_task task_id (publish_step C task_id merged article st).2.
Proof.
  intros Hst. unfold publish_step.
  repeat match goal with
    | |- context [match ?x with _ => _ end] =>
        match x with
        | context [match _ with _ => _ end] => fail 1
        | _ => destruct x
        end
    | |- context [if ?b then _ else _] => destruct b
    end;
    cbn [snd]; first [exact Hst | apply update_has_task].
Qed.

Lemma job_body_has_task merged file_url episode_url st :
  merged_settings C = Ok merged →
  has_task task_id (job_body C task_id file_url episode_url st).2.
Proof.
  intros Hm. unfold job_body. rewrite Hm.
  destruct (download_audio C file_url) as [audio|e]; cbn [snd];
    [|apply update_has_task].
  destruct (Py.get merged "whisper" (JDict [])) as [whisper|e]; cbn [snd];
    [|apply update_has_task].
  destruct (transcribe_audio C audio whisper) as [transcript|e]; cbn [snd];
    [|apply update_has_task].
  destruct (generate_article C transcript episode_url) as [article|e];
    cbn [snd]; [|apply update_has_task].
  destruct (Py.item article "title") as [title|e]; cbn [snd];
    [|apply update_has_task].
  destruct (store_result _ _ _) as [st5|e] eqn:Hstore; cbn [snd];
    [|apply update_has_task].
  destruct (publish_step _ _ _ _ _) as [r st6] eqn:Hpub; cbn [snd].
  rewrite <- (f_equal snd Hpub : _ = st6).
  apply publish_step_has_task, update_has_task.
Qed.

(** X21. Once the settings have loaded, a job whose body raises leaves the
    exception's text in the task's error, sets the fixed failure status, and
    ends the task's log with an ERROR line carrying the same text. *)
Theorem failure_is_recorded merged file_url episode_url e st :
  merged_settings C = Ok merged →
  (job_body C task_id file_url episode_url st).1.1 = Raise e →
  ∃ t, processing_status
         (process_podcast_background C task_id file_url episode_url st)
         !! task_id = Some t
       ∧ error t = Some (error_text C e)
       ∧ status t = "処理中にエラーが発生しました"
       ∧ ∃ stamp, last (logs t) = Some (mklog stamp "ERROR" (error_text C e)).
Proof.
  intros Hm Hraise. unfold process_podcast_background.
  pose proof (job_body_has_task merged file_url episode_url st Hm) as [t1 Ht1].
  destruct (job_body C task_id file_url episode_url st) as [[r article] st1].
  cbn in Hraise, Ht1. subst r. rewrite Ht1. cbn.
  rewrite !lookup_alter_eq.
  destruct article; [rewrite lookup_alter_eq|]; rewrite Ht1; cbn;
    (eexists; split; [done|]; cbn; split; [done|]; split; [done|];
     eexists; by rewrite last_snoc).
Qed.

(** X22. When loading the settings raises and the task id is not in the
    registry, the failure is recorded nowhere: the registry and the rest of the
    state are left as they were. *)
Theorem unknown_task_failure_is_silent file_url episode_url e st :
  merged_settings C = Raise e →
  processing_status st !! task_id = None →
  process_podcast_background C task_id file_url episode_url st = st.
Proof.
  intros Hm Hnone. unfold process_podcast_background, job_body.
  by rewrite Hm, Hnone.
Qed.

(** X23. Whatever the posting does - succeed, report failure or raise - and also
    when it is skipped, step 4 ends without an exception, with the task at step
    4 of 4 named 完了 and no error; the posting is attempted at most once. *)
Theorem posting_failure_is_not_an_error merged entries url article st :
  Py.get merged "wordpress" (JDict []) = Ok (JDict entries) →
  Py.assoc "site_url" entries = Some (JString url) →
  let out := publish_step C task_id merged article st in
  out.1 = Ok tt
  ∧ (∃ t, processing_status out.2 !! task_id = Some t
          ∧ current_step t = 4%Z ∧ total_steps t = 4%Z
          ∧ step_name t = "完了" ∧ error t = None)
  ∧ (entered out.2 = entered st
     ∨ entered out.2 = (entered st ++ [(Publish, processing_status st)])%list).
Proof.
  intros Hwp Hurl. cbn zeta. unfold publish_step. rewrite Hwp.
  cbn [Py.get]. rewrite Hurl. cbn [default from_option id Py.slice].
  assert (Hdone : ∀ msg s, ∃ t,
            processing_status (update_status C task_id 4 4 "完了" msg None s)
              !! task_id = Some t
            ∧ current_step t = 4%Z ∧ total_steps t = 4%Z
            ∧ step_name t = "完了" ∧ error t = None).
  { intros msg s.
    destruct (update_fields 4 4 "完了" msg None s)
      as (t & Ht & H1 & H2 & H3 & _ & H5 & _).
    by exists t. }
  match goal with |- context [if ?b then _ else _] => destruct b end.
  - destruct (post_article C (JDict entries) article) as [[|]|e]; cbn [fst snd];
      (split; [done|]; split; [apply Hdone|]; right;
       by rewrite update_entered).
  - cbn [fst snd]. split; [done|]. split; [apply Hdone|]. left.
    by rewrite update_entered.
Qed.

(** X24. With the WordPress user name or password missing or empty, the posting
    stage is never entered and the task's status says that posting was skipped. *)
Theorem incomplete_settings_skip_publishing merged entries url article st :
  Py.get merged "wordpress" (JDict []) = Ok (JDict entries) →
  Py.assoc "site_url" entries = Some (JString url) →
  Py.truth (default JNull (Py.assoc "username" entries))
  && Py.truth (default JNull (Py.assoc "password" entries)) = false →
  let out := publish_step C task_id merged article st in
  entered out.2 = entered st
  ∧ ∃ t, processing_status out.2 !! task_id = Some t
         ∧ status t = "記事生成完了（WordPress設定なしのため投稿はスキップ）".
Proof.
  intros Hwp Hurl Hmissing. cbn zeta. unfold publish_step. rewrite Hwp.
  cbn [Py.get]. rewrite Hurl. cbn [default from_option id Py.slice].
  rewrite <- andb_assoc, Hmissing, andb_false_r. cbn [fst snd].
  split; [by rewrite update_entered|].
  destruct (update_fields 4 4 "完了"
              "記事生成完了（WordPress設定なしのため投稿はスキップ）" None st)
    as (t & Ht & _ & _ & _ & H4 & _).
  by exists t.
Qed.

End JobMore.

Section ResultEndpoint.
Import App Registry Api.
Variable C : collaborators.
Variable task_id : string.

Lemma update_stored step total name msg err st :
  stored_result task_id
    (processing_status (update_status C task_id step total name msg err st))
  = stored_result task_id (processing_status st).
Proof. apply update_status_keeps. Qed.

Lemma enter_stored s st :
  stored_result task_id (processing_status (enter s st))
  = stored_result task_id (processing_status st).
Proof. done. Qed.

Lemma item_truth d key v : Py.item d key = Ok v → Py.truth d = true.
Proof.
  destruct d as [| | | | |?|entries]; try done. by destruct entries.
Qed.

Lemma api_result_stored reg article :
  stored_result task_id reg = Some article →
  Py.truth article = true →
  api_result task_id (Some reg) = (article, 200%Z).
Proof.
  unfold stored_result, api_result. intros Hres Htruth.
  destruct (reg !! task_id) as [t|]; [|done]. cbn in Hres.
  by rewrite Hres, Htruth.
Qed.

(** X25. Once the generation stage has returned an article with a title,
    api_result serves that article with status 200 after the job, whatever
    happened to the posting - also when step 4 raised. *)
Theorem generated_article_is_served
    merged file_url episode_url audio whisper transcript article title st :
  merged_settings C = Ok merged →
  download_audio C file_url = Ok audio →
  Py.get merged "whisper" (JDict []) = Ok whisper →
  transcribe_audio C audio whisper = Ok transcript →
  generate_article C transcript episode_url = Ok article →
  Py.item article "title" = Ok title →
  api_result task_id
    (Some (processing_status
             (process_podcast_background C task_id file_url episode_url st)))
  = (article, 200%Z).
Proof.
  intros Hm Hd Hw Ht Hg Hi.
  apply api_result_stored; [|by eapply item_truth].
  unfold process_podcast_background, job_body.
  rewrite Hm, Hd, Hw, Ht, Hg, Hi.
  match goal with |- context [store_result _ _ ?s] => set (s3 := s) end.
  destruct (store_result_stores task_id article s3) as (st5 & Hstore & _ & Hres).
  { apply update_task. }
  rewrite Hstore.
  match goal with |- context [publish_step _ _ _ _ ?s] => set (s4 := s) end.
  assert (Hres4 : stored_result task_id (processing_status s4) = Some article).
  { unfold s4. by rewrite update_stored. }
  destruct (publish_step_keeps C task_id merged article s4 Hres4) as [Hres6 _].
  destruct (publish_step C task_id merged article s4) as [r st6].
  cbn [snd] in Hres6. destruct r as [u|e]; [done|].
  unfold stored_result in Hres6 |- *.
  destruct (processing_status st6 !! task_id) as [t6|] eqn:Ht6; [|done].
  cbn. by rewrite !lookup_alter_eq, Ht6.
Qed.

(** X26. After a job that failed before the generation stage returned, on a task
    that had no result, api_result answers 404 with the not-finished message. *)
Theorem unfinished_job_serves_nothing merged file_url episode_url e st :
  merged_settings C = Ok merged →
  (job_body C task_id file_url episode_url st).1 = (Raise e, None) →
  stored_result task_id (processing_status st) = None →
  api_result task_id
    (Some (processing_status
             (process_podcast_background C task_id file_url episode_url st)))
  = (error_body "処理がまだ完了していません", 404%Z).
Proof.
  intros Hm Hfail Hnone.
  assert (Hbody : job_body C task_id file_url episode_url st
                  = (Raise e, None,
                     (job_body C task_id file_url episode_url st).2)).
  { destruct (job_body C task_id file_url episode_url st) as [[r a] s1].
    cbn [fst snd] in Hfail |- *. congruence. }
  clear Hfail.
  assert (Hkeep : stored_result task_id
                    (processing_status
                       (job_body C task_id file_url episode_url st).2) = None).
  { revert Hbody. unfold job_body. rewrite Hm.
    repeat match goal with
      | |- context [match ?x with Ok _ => _ | Raise _ => _ end] =>
          match x with
          | context [match _ with _ => _ end] => fail 1
          | _ => destruct x
          end
      | |- context [let '(_, _) := ?x in _] => destruct x
      end; cbn [snd]; intros Heq; try discriminate Heq;
      by repeat (rewrite update_stored || rewrite enter_stored). }
  pose proof (job_body_has_task C task_id merged file_url episode_url st Hm)
    as [t1 Ht1].
  unfold process_podcast_background. rewrite Hbody.
  revert Hkeep Ht1.
  generalize (job_body C task_id file_url episode_url st).2. intros st1 Hkeep Ht1.
  unfold stored_result in Hkeep. rewrite Ht1 in Hkeep |- *. cbn in Hkeep.
  unfold api_result. cbn. rewrite !lookup_alter_eq, Ht1. cbn. by rewrite Hkeep.
Qed.

End ResultEndpoint.

Section ProcessorFacts.
Import Text PodcastProcessor.

Lemma ends_with_app a b : ends_with b (a ++ b) = true.
Proof.
  induction a as [|c a IH]; cbn.
  - destruct b; cbn; [done|]. rewrite Ascii.eqb_refl, String.eqb_refl. done.
  - rewrite IH. apply orb_true_r.
Qed.

(** X27. A URL that ends in one of the six audio extensions, in any mixture of
    upper and lower case, is taken for a direct file URL. *)
Theorem audio_extension_is_direct base ext :
  lower ext ∈ audio_extensions →
  _is_direct_file_url (base ++ ext) = true.
Proof.
  intros Hext. unfold _is_direct_file_url. apply existsb_exists.
  exists (lower ext). split; [by apply list_elem_of_In|].
  rewrite lower_app. apply ends_with_app.
Qed.

End ProcessorFacts.

Section SettingsFacts.
Import Settings.

Lemma assoc_set_item k k' v d :
  Py.assoc k (set_item k' v d) = if String.eqb k' k then Some v else Py.assoc k d.
Proof.
  induction d as [|[k0 v0] d IH]; cbn.
  - by destruct (String.eqb k' k).
  - destruct (String.eqb k0 k') eqn:E0; cbn.
    + apply String.eqb_eq in E0 as ->. by destruct (String.eqb k' k).
    + rewrite IH. destruct (String.eqb k0 k) eqn:E1; [|done].
      apply String.eqb_eq in E1 as ->. by rewrite String.eqb_sym, E0.
Qed.

Lemma assoc_dict_update_notin k u d :
  k ∉ u.*1 → Py.assoc k (dict_update u d) = Py.assoc k d.
Proof.
  unfold dict_update. revert d.
  induction u as [|[k0 v0] u IH]; intros d Hk; [done|].
  cbn in Hk |- *. apply not_elem_of_cons in Hk as [Hne Hk].
  rewrite IH by done. rewrite assoc_set_item.
  destruct (String.eqb k0 k) eqn:E; [|done].
  by apply String.eqb_eq in E as ->.
Qed.

Lemma assoc_dict_update_in k v u d :
  NoDup u.*1 → (k, v) ∈ u → Py.assoc k (dict_update u d) = Some v.
Proof.
  unfold dict_update. revert d.
  induction u as [|[k0 v0] u IH]; intros d Hnd Hin; [by apply elem_of_nil in Hin|].
  cbn in Hnd |- *. apply NoDup_cons in Hnd as [Hk0 Hnd].
  apply elem_of_cons in Hin as [[= -> ->]|Hin].
  - pose proof (assoc_dict_update_notin k0 u (set_item k0 v0 d) Hk0) as H.
    unfold dict_update in H. rewrite H, assoc_set_item.
    by rewrite String.eqb_refl.
  - by apply IH.
Qed.

Lemma merge_entry_other s σ key value name :
  key ≠ name →
  (merge_entry (s, σ) (key, value)).1 !! name = s !! name
  ∧ (merge_entry (s, σ) (key, value)).2 !! name = σ !! name.
Proof.
  intros Hne. unfold merge_entry.
  destruct (s !! key) as [[|[]]|], value; cbn;
    rewrite ?lookup_insert_ne, ?lookup_alter_ne by done; done.
Qed.

Lemma fold_merge_other entries s σ name :
  name ∉ entries.*1 →
  (fold_left merge_entry entries (s, σ)).1 !! name = s !! name
  ∧ (fold_left merge_entry entries (s, σ)).2 !! name = σ !! name.
Proof.
  revert s σ. induction entries as [|[key value] entries IH]; intros s σ Hk;
    [done|].
  rewrite fmap_cons in Hk. cbn [fold_left].
  apply not_elem_of_cons in Hk as [Hne Hk]. cbn [fst] in Hne.
  destruct (merge_entry_other s σ key value name) as [H1 H2]; [done|].
  destruct (merge_entry (s, σ) (key, value)) as [s' σ'].
  destruct (IH s' σ' Hk) as [H3 H4]. cbn in H1, H2. by rewrite H3, H4, H1, H2.
Qed.

Lemma fold_merge_at entries s σ name value :
  NoDup entries.*1 → (name, value) ∈ entries →
  let acc := merge_entry (s, σ) (name, value) in
  (fold_left merge_entry entries (s, σ)).1 !! name = acc.1 !! name
  ∧ (fold_left merge_entry entries (s, σ)).2 !! name = acc.2 !! name.
Proof.
  intros Hnd Hin. cbn zeta.
  apply list_elem_of_split in Hin as (l1 & l2 & ->).
  rewrite fmap_app in Hnd. cbn in Hnd.
  apply NoDup_app in Hnd as (_ & Hl1 & Hnd).
  apply NoDup_cons in Hnd as [Hl2 _].
  assert (Hname : name ∉ l1.*1).
  { intros H. apply (Hl1 _ H). left. }
  rewrite fold_left_app. cbn [fold_left].
  destruct (fold_merge_other l1 s σ name Hname) as [H1 H2].
  destruct (fold_left merge_entry l1 (s, σ)) as [s1 σ1]. cbn in H1, H2.
  destruct (fold_merge_other l2 (merge_entry (s1, σ1) (name, value)).1
              (merge_entry (s1, σ1) (name, value)).2 name Hl2) as [H3 H4].
  rewrite <- surjective_pairing in H3, H4. rewrite H3, H4.
  unfold merge_entry. rewrite H1.
  destruct (s !! name) as [[|[]]|] eqn:Hs, value; cbn [fst snd];
    rewrite ?lookup_insert_eq, ?lookup_alter_eq, ?H1, ?H2, ?Hs; done.
Qed.

Lemma env_lines_other lines s σ name :
  name ≠ "wordpress" →
  (env_lines lines (s, σ)).2 !! name = σ !! name.
Proof.
  intros Hne. revert s σ. induction lines as [|line lines IH]; intros s σ; [done|].
  cbn [env_lines].
  assert (Hset : ∀ k v, match set_wordpress k v (s, σ) with
                        | Ok acc => acc.2 !! name = σ !! name
                        | Raise _ => True
                        end).
  { intros k v. unfold set_wordpress.
    destruct (s !! "wordpress") as [[|[]]|]; cbn; try done.
    by rewrite lookup_alter_ne. }
  unfold env_line.
  repeat match goal with
    | |- context [if ?b then _ else _] => destruct b
    end;
    try (match goal with
         | |- context [set_wordpress ?k ?v _] =>
             specialize (Hset k v); destruct (set_wordpress k v (s, σ)) as [[s' σ']|e]
         end; [rewrite IH; exact Hset|done]).
  apply IH.
Qed.

Lemma load_body_store_at entries env σ name u d :
  NoDup entries.*1 → (name, JDict u) ∈ entries →
  (name = "wordpress" → env = NoEnvFile) →
  σ !! name = Some d →
  (load_body (Loaded (JDict entries)) env σ).2 !! name = Some (dict_update u d).
Proof.
  intros Hnd Hin Henv Hd. unfold load_body.
  destruct (fold_merge_at entries (copy σ) σ name (JDict u) Hnd Hin) as [_ H2].
  destruct (fold_left merge_entry entries (copy σ, σ)) as [s1 σ1].
  cbn [fst snd] in H2.
  assert (Hσ1 : σ1 !! name = Some (dict_update u d)).
  { rewrite H2. unfold merge_entry, copy. rewrite lookup_fmap, Hd. cbn.
    by rewrite lookup_alter_eq, Hd. }
  destruct env as [| |lines]; cbn [snd]; try done.
  rewrite env_lines_other; [done|].
  intros ->. by specialize (Henv eq_refl).
Qed.

(** X28. What the user settings file sets inside one of the default sections is
    written into DEFAULT_SETTINGS itself, because the copy is shallow: a later
    load_settings, with the user file gone, still returns the user's value. *)
Theorem user_overrides_reach_the_defaults entries env name u d k v σ :
  NoDup entries.*1 → (name, JDict u) ∈ entries →
  NoDup u.*1 → (k, v) ∈ u →
  (name = "wordpress" → env = NoEnvFile) →
  σ !! name = Some d →
  let σ1 := (load_settings (Loaded (JDict entries)) env σ).2 in
  read (load_settings NoUserFile NoEnvFile σ1) name k = Some v.
Proof.
  intros Hnd Hin Hu Hk Henv Hd. cbn zeta.
  pose proof (load_body_store_at entries env σ name u d Hnd Hin Henv Hd) as Hb.
  unfold load_settings at 2.
  destruct (load_body (Loaded (JDict entries)) env σ) as [[s1|e] σ1];
    cbn [snd] in Hb |- *;
    unfold load_settings, load_body, read, copy; cbn [fst snd];
    rewrite lookup_fmap, Hb; cbn; by apply assoc_dict_update_in.
Qed.



End SettingsFacts.

Section LedgerWitnesses.
Import Calendar UsageLimiter Samples MoreSamples.

Lemma evening_quota ip : (use_quota 1 ip (ledger Missing)).1.1 = true.
Proof. vm_compute. reflexivity. Qed.


Lemma client_count_example :
  let ip := Some "203.0.113.7" in
  let d := jst_ordinal evening in
  ∃ log rec, file (use_quota 1 ip (ledger Missing)).2 = Stored log ∧
    log !! day_key d = Some rec ∧
    total rec = (used (day_key d) (ledger Missing) + 1)%Z ∧
    let before := ips (today_record (day_key d) (ledger Missing)) in
    match truthy ip with
    | Some a => ips rec !! a = Some (default 0%Z (before !! a) + 1)%Z
                ∧ ∀ b, b ≠ a → ips rec !! b = before !! b
    | None => ips rec = before
    end.
Proof.
  exact (consume_counts_the_client 1 (Some "203.0.113.7") (ledger Missing)
           (jst_ordinal evening) (evening_on_day Missing) evening_year
           (evening_quota (Some "203.0.113.7"))).
Defined.

Lemma next_evening_on_day f : on_day (ledger_at next_evening f) (jst_ordinal evening + 1).
Proof. intros n. vm_compute. reflexivity. Qed.

Lemma next_evening_year : (year (fromordinal (jst_ordinal evening + 1)) <= 9999)%N.
Proof. vm_compute. discriminate. Qed.

Lemma next_day_example :
  let w := ledger Missing in
  let w2 := ledger_at next_evening (file (use_quota 1 None w).2) in
  let d := jst_ordinal evening in
  let info := (get_usage_info 1 None w2).1 in
  (use_quota 1 None w).1.1 = true
  ∧ total_used info = used (day_key (d + 1)) w
  ∧ remaining info = Z.max 0 (1 - used (day_key (d + 1)) w).
Proof.
  cbn zeta. split; [exact (evening_quota None)|].
  exact (next_day_starts_fresh 1 None (ledger Missing) (jst_ordinal evening)
           (ledger_at next_evening (file (use_quota 1 None (ledger Missing)).2))
           (evening_on_day Missing) next_evening_year (evening_quota None)
           eq_refl (next_evening_on_day _)).
Defined.

End LedgerWitnesses.

Section ServerWitnesses.
Import Calendar UsageLimiter Samples MoreSamples Server.



Lemma accepted_request_example :
  let out := api_process 5 show "task-1" good_request (idle Missing) in
  let d := jst_ordinal evening in
  out.1.2 = 200%Z
  ∧ ∃ data file_url episode_url user_settings,
      get_json good_request = Ok data
      ∧ stripped data "file_url" = Ok file_url
      ∧ stripped data "episode_url" = Ok episode_url
      ∧ String.prefix "http" file_url = true
      ∧ registry out.2
        = Some (<["task-1" := started_task]> (default ∅ (registry (idle Missing))))
      ∧ started out.2
        = (started (idle Missing)
           ++ [mkargs "task-1" file_url episode_url user_settings])%list
      ∧ used (day_key d) (Server.ledger out.2)
        = (used (day_key d) (Server.ledger (idle Missing)) + 1)%Z
      ∧ (used (day_key d) (Server.ledger out.2) <= 5)%Z.
Proof.
  cbn zeta.
  assert (H : (api_process 5 show "task-1" good_request (idle Missing)).1.2
              = 200%Z) by (vm_compute; reflexivity).
  split; [exact H|].
  exact (accepted_request_starts_one_job 5 show "task-1" good_request
           (idle Missing) (jst_ordinal evening) (evening_on_day Missing)
           evening_year H).
Defined.

End ServerWitnesses.

Section GenerationWitnesses.
Import BlogGenerator Samples MoreSamples.

Lemma overloaded_example :
  Text.lower "OverLoaded" = "overloaded"
  ∧ overloaded ("Error code: 529 - " ++ "OverLoaded" ++ " (try later)") = true.
Proof.
  assert (H : Text.lower "OverLoaded" = "overloaded") by (vm_compute; reflexivity).
  split; [exact H|].
  exact (overloaded_ignores_case "Error code: 529 - " "OverLoaded" " (try later)" H).
Defined.




End GenerationWitnesses.

Section PublishingWitnesses.
Import WordPressPoster Samples MoreSamples.

Lemma blog_is_configured : _validate_settings blog = true.
Proof. vm_compute. reflexivity. Qed.

Lemma no_login_form_example :
  let w := net [inr dashboard] in
  loginform (soup dashboard) = None
  ∧ (post_article blog article_value w).1 = Ok false
  ∧ requests (post_article blog article_value w).2
    = (requests w ++ [GET (login_url blog)])%list.
Proof.
  cbn zeta. split; [reflexivity|].
  refine (no_login_form_sends_no_credentials blog article_value
            (net [inr dashboard]) dashboard blog_is_configured _ _ _);
    vm_compute; reflexivity.
Defined.

Lemma unreachable_site_example :
  let w := net [] in
  answer w (sent w) (GET (login_url blog)) = inl "connection refused"
  ∧ (post_article blog article_value w).1 = Ok false
  ∧ requests (post_article blog article_value w).2
    = (requests w ++ [GET (login_url blog)])%list.
Proof.
  cbn zeta.
  assert (H : answer (net []) (sent (net [])) (GET (login_url blog))
              = inl "connection refused") by reflexivity.
  split; [exact H|].
  exact (unreachable_site_is_a_failed_post blog article_value (net [])
           "connection refused" blog_is_configured H).
Defined.

Lemma editor_page_is_complete field :
  field ∈ required_fields → is_Some (editor_fields editor_page !! field).
Proof.
  intros Hin. unfold required_fields in Hin.
  repeat (apply elem_of_cons in Hin as [->|Hin];
          [eexists; vm_compute; reflexivity|]).
  by apply elem_of_nil in Hin.
Qed.

Lemma successful_run_example :
  let w := net [inr login_page; inr dashboard; inr editor_page; inr posted_page] in
  let entries := [("title", JString "T"); ("content", JString "<p>short</p>")] in
  let fields := <["originalaction" := "editpost"]>
                  (<["action" := "editpost"]> (editor_fields editor_page)) in
  let data := post_data blog (JString "T") (JString "<p>short</p>")
                (default (JString "") (Py.assoc "summary" entries)) fields in
  published posted_page = true
  ∧ (post_article blog (JDict entries) w).1 = Ok (published posted_page)
  ∧ requests (post_article blog (JDict entries) w).2
    = (requests w
       ++ [GET (login_url blog);
           POST (login_url blog) (login_data blog (harvest login_inputs ∅));
           GET (site_url blog ++ "/wp-admin/post-new.php");
           POST (site_url blog ++ "/wp-admin/post.php") data])%list
  ∧ data !! "action" = Some (JString "editpost")
  ∧ data !! "post_title" = Some (JString "T")
  ∧ data !! "post_status" = Some (JString (post_status blog)).
Proof.
  cbn zeta. split; [vm_compute; reflexivity|].
  refine (successful_run_publishes blog
            (net [inr login_page; inr dashboard; inr editor_page; inr posted_page])
            login_page login_inputs dashboard editor_page posted_page
            (JString "T") (JString "<p>short</p>")
            [("title", JString "T"); ("content", JString "<p>short</p>")]
            blog_is_configured _ _ _ _ _ _ _ _ editor_page_is_complete
            _ _ _ _ _);
    try (vm_compute; reflexivity).
  eexists. reflexivity.
Defined.

End PublishingWitnesses.

Section JobWitnesses.
Import App Registry Api Samples MoreSamples.

Lemma failed_download_example :
  let C := job_without_audio in
  let e := ApiError "404 Not Found" in
  (job_body C "task-1" "https://example.org/a.mp3" "" no_tasks).1.1 = Raise e
  ∧ ∃ t, processing_status
           (process_podcast_background C "task-1" "https://example.org/a.mp3" ""
              no_tasks) !! "task-1" = Some t
         ∧ error t = Some (error_text C e)
         ∧ status t = "処理中にエラーが発生しました"
         ∧ ∃ stamp, last (logs t) = Some (mklog stamp "ERROR" (error_text C e)).
Proof.
  cbn zeta.
  assert (H : (job_body job_without_audio "task-1" "https://example.org/a.mp3" ""
                 no_tasks).1.1 = Raise (ApiError "404 Not Found"))
    by reflexivity.
  split; [exact H|].
  exact (failure_is_recorded job_without_audio "task-1" settings
           "https://example.org/a.mp3" "" (ApiError "404 Not Found") no_tasks
           eq_refl H).
Defined.

Lemma silent_failure_example :
  processing_status no_tasks !! "task-1" = None
  ∧ process_podcast_background job_without_settings "task-1"
      "https://example.org/a.mp3" "" no_tasks = no_tasks.
Proof.
  assert (H : processing_status no_tasks !! "task-1" = None) by apply lookup_empty.
  split; [exact H|].
  exact (unknown_task_failure_is_silent job_without_settings "task-1"
           "https://example.org/a.mp3" "" (PlainException "settings") no_tasks
           eq_refl H).
Defined.

Lemma posting_failure_example :
  let C := job (Raise (ApiError "connection reset")) in
  let out := publish_step C "task-1" settings article_value no_tasks in
  out.1 = Ok tt
  ∧ (∃ t, processing_status out.2 !! "task-1" = Some t
          ∧ current_step t = 4%Z ∧ total_steps t = 4%Z
          ∧ step_name t = "完了" ∧ error t = None)
  ∧ (entered out.2 = entered no_tasks
     ∨ entered out.2
       = (entered no_tasks ++ [(Publish, processing_status no_tasks)])%list).
Proof.
  exact (posting_failure_is_not_an_error (job (Raise (ApiError "connection reset")))
           "task-1" settings wordpress_entries "https://blog.example"
           article_value no_tasks eq_refl eq_refl).
Defined.

Lemma skipped_posting_example :
  let C := job (Ok true) in
  let out := publish_step C "task-1" settings_without_password article_value
               no_tasks in
  Py.assoc "password" entries_without_password = None
  ∧ entered out.2 = entered no_tasks
  ∧ ∃ t, processing_status out.2 !! "task-1" = Some t
         ∧ status t = "記事生成完了（WordPress設定なしのため投稿はスキップ）".
Proof.
  cbn zeta. split; [reflexivity|].
  exact (incomplete_settings_skip_publishing (job (Ok true)) "task-1"
           settings_without_password entries_without_password
           "https://blog.example" article_value no_tasks
           eq_refl eq_refl eq_refl).
Defined.

Lemma served_article_example :
  let C := job (Ok false) in
  Py.item article_value "title" = Ok (JString "T")
  ∧ api_result "task-1"
      (Some (processing_status
               (process_podcast_background C "task-1"
                  "https://example.org/a.mp3" "" no_tasks)))
    = (article_value, 200%Z).
Proof.
  cbn zeta. split; [reflexivity|].
  exact (generated_article_is_served (job (Ok false)) "task-1" settings
           "https://example.org/a.mp3" "" "/tmp/podcast.m4a" (JDict [])
           "transcript" article_value (JString "T") no_tasks
           eq_refl eq_refl eq_refl eq_refl eq_refl eq_refl).
Defined.

Lemma unfinished_job_example :
  let C := job_without_audio in
  (job_body C "task-1" "https://example.org/a.mp3" "" no_tasks).1
  = (Raise (ApiError "404 Not Found"), None)
  ∧ api_result "task-1"
      (Some (processing_status
               (process_podcast_background C "task-1"
                  "https://example.org/a.mp3" "" no_tasks)))
    = (error_body "処理がまだ完了していません", 404%Z).
Proof.
  cbn zeta.
  assert (H : (job_body job_without_audio "task-1" "https://example.org/a.mp3" ""
                 no_tasks).1 = (Raise (ApiError "404 Not Found"), None))
    by reflexivity.
  split; [exact H|].
  exact (unfinished_job_serves_nothing job_without_audio "task-1" settings
           "https://example.org/a.mp3" "" (ApiError "404 Not Found") no_tasks
           eq_refl H eq_refl).
Defined.

End JobWitnesses.

Section SettingsWitnesses.
Import PodcastProcessor Settings MoreSamples.

Lemma upper_case_extension_example :
  Text.lower ".MP3" ∈ audio_extensions
  ∧ _is_direct_file_url ("https://example.org/episode" ++ ".MP3") = true.
Proof.
  assert (H : Text.lower ".MP3" ∈ audio_extensions) by (vm_compute; left).
  split; [exact H|].
  exact (audio_extension_is_direct "https://example.org/episode" ".MP3" H).
Defined.

Lemma leaked_override_example :
  let σ1 := (load_settings (Loaded (JDict user_password)) NoEnvFile
               DEFAULT_SETTINGS).2 in
  read (copy DEFAULT_SETTINGS, DEFAULT_SETTINGS) "wordpress" "password"
  = Some (JString "")
  ∧ read (load_settings NoUserFile NoEnvFile σ1) "wordpress" "password"
    = Some (JString "secret").
Proof.
  cbn zeta. split; [vm_compute; reflexivity|].
  refine (user_overrides_reach_the_defaults user_password NoEnvFile "wordpress"
            [("password", JString "secret")]
            [("site_url", JString ""); ("username", JString "");
             ("password", JString ""); ("timeout", JInt 30);
             ("category", JString "ポッドキャスト"); ("status", JString "draft")]
            "password" (JString "secret") DEFAULT_SETTINGS _ _ _ _ _ _).
  - apply NoDup_singleton.
  - apply list_elem_of_here.
  - apply NoDup_singleton.
  - apply list_elem_of_here.
  - reflexivity.
  - vm_compute. reflexivity.
Defined.


End SettingsWitnesses.
